(** * golearn user service: authentication engine, directory and transports

    A shallow embedding of the Go sources
      - services/user/domain      (User, requests, responses)
      - services/user/repository  (userRepository over gorm)
      - services/user/service     (userService: Register, Login, GetUserByID,
                                   ValidateToken)
      - services/user/handler     (HTTPHandler, GRPCHandler)
      - internal/config           (Load, getEnv)
    Package internal/util (HashPassword, CheckPassword, GenerateJWT,
    ValidateJWT) is not among the sources: the service is embedded over its
    interface [util.Util], and module [codec] models it from the
    specification.
    Go strings are [string]; a Go [error] value is a term of [errors.error]
    and a nil error is [None]; a Go function returning [(T, error)] returns
    [result T]; reads of the clock, of the entropy source and of the uuid
    generator are fields of an explicit [World]; the database is an explicit
    state that every directory call threads through. *)

From Stdlib Require Import ZArith Ascii DecimalString DecimalZ.
From stdpp Require Import base option list strings gmap.

Local Open Scope Z_scope.

(* ===================================================================== *)
(** ** Go errors *)
(* ===================================================================== *)

Module errors.

(** The error values that occur in the program.  The first three are the
    package-level sentinels of the repository and service packages (values
    of [errors.New], compared by identity); the gorm values are those of
    the storage library, [gorm_Error] being any other error of the driver.
    The next five are the failure kinds of the credential and token codecs
    of package util, which is not among the sources: they carry the names
    of spec 4.1, 4.2 and 7, and their text is that name, since the spec
    fixes no other.  [binding_Error] is what gin's binding reports;
    [New msg] is a fresh error that only carries a text (it is no sentinel:
    the program never compares against it); [Errorf prefix cause] is
    [fmt.Errorf(prefix + ": %w", cause)]. *)
Inductive error : Type :=
| ErrUserNotFound
| ErrDuplicateEmail
| ErrInvalidCredentials
| gorm_ErrDuplicatedKey
| gorm_ErrRecordNotFound
| gorm_Error (msg : string)
| HashingFailure
| IssuanceFailure
| Malformed
| SignatureInvalid
| Expired
| binding_Error (msg : string)
| New (msg : string)
| Errorf (prefix : string) (cause : error).

#[global] Instance error_eq_dec : EqDecision error.
Proof. solve_decision. Defined.

(** [err.Error()] *)
Fixpoint Error (err : error) : string :=
  match err with
  | ErrUserNotFound => "user not found"
  | ErrDuplicateEmail => "email already exists"
  | ErrInvalidCredentials => "invalid email or password"
  | gorm_ErrDuplicatedKey => "duplicated key not allowed"
  | gorm_ErrRecordNotFound => "record not found"
  | gorm_Error msg => msg
  | HashingFailure => "hashing failure"
  | IssuanceFailure => "issuance failure"
  | Malformed => "token is malformed"
  | SignatureInvalid => "signature is invalid"
  | Expired => "token is expired"
  | binding_Error msg => msg
  | New msg => msg
  | Errorf prefix cause => prefix +:+ ": " +:+ Error cause
  end.

(** [errors.Unwrap] *)
Definition Unwrap (err : error) : option error :=
  match err with
  | Errorf _ cause => Some cause
  | _ => None
  end.

(** [errors.Is(err, target)]: walks the chain of wrapped causes and
    compares each link with the target. *)
Fixpoint Is (err target : error) : bool :=
  bool_decide (err = target) ||
  match err with
  | Errorf _ cause => Is cause target
  | _ => false
  end.

(** A Go result [(T, error)]. *)
Inductive result (A : Type) : Type :=
| Ok (a : A)
| Err (err : error).
#[global] Arguments Ok {A} a.
#[global] Arguments Err {A} err.

Definition is_Ok {A} (r : result A) : bool :=
  match r with Ok _ => true | Err _ => false end.

End errors.
Export errors.

(* ===================================================================== *)
(** ** What one call reads from outside the program *)
(* ===================================================================== *)

(** One inbound call reads the clock, may draw a uuid, may draw entropy for
    a salt, and performs its directory call against a store that may fail
    for reasons of its own (connection lost, context cancelled). *)
Record World : Type := {
  time_Now : Z;               (* seconds since the zero time *)
  uuid_New : string;          (* uuid.New().String() *)
  rand_Read : option string;  (* entropy for a salt; None: the source failed *)
  db_fault : option string    (* Some msg: the storage driver fails with msg *)
}.

(* ===================================================================== *)
(** ** package domain *)
(* ===================================================================== *)

Module domain.

Record User : Type := {
  ID : string;
  Email : string;
  Name : string;
  Password : string;
  CreatedAt : Z;
  UpdatedAt : Z
}.

#[global] Instance User_eq_dec : EqDecision User.
Proof. solve_decision. Defined.

(** [User.BeforeCreate]: the hook that assigns a uuid when the ID is
    empty. *)
Definition BeforeCreate (w : World) (u : User) : User :=
  if bool_decide (ID u = "")
  then {| ID := uuid_New w; Email := Email u; Name := Name u;
          Password := Password u;
          CreatedAt := CreatedAt u; UpdatedAt := UpdatedAt u |}
  else u.

Module RegisterRequest.
Record t : Type := { Email : string; Name : string; Password : string }.
End RegisterRequest.

Module LoginRequest.
Record t : Type := { Email : string; Password : string }.
End LoginRequest.

Module LoginResponse.
Record t : Type := { Token : string; User : domain.User }.
End LoginResponse.

Module ErrorResponse.
Record t : Type := { Error : string }.
End ErrorResponse.

End domain.
Export domain.

(* ===================================================================== *)
(** ** gorm: the storage library, as the repository uses it *)
(* ===================================================================== *)

Module gorm.

(** The database holds the table [users]; column [id] is the primary key
    and column [email] carries a unique index (the struct tags of
    [domain.User]). *)
Record DB : Type := { users : list User }.

Definition empty : DB := {| users := [] |}.

(** autoCreateTime / autoUpdateTime: a zero timestamp is set to now. *)
Definition autoTime (w : World) (u : User) : User :=
  {| ID := ID u; Email := Email u; Name := Name u; Password := Password u;
     CreatedAt := if bool_decide (CreatedAt u = 0) then time_Now w
                  else CreatedAt u;
     UpdatedAt := if bool_decide (UpdatedAt u = 0) then time_Now w
                  else UpdatedAt u |}.

(** A row collides with [u] on the primary key or on the unique index. *)
Definition collides (u r : User) : bool :=
  bool_decide (ID r = ID u) || bool_decide (Email r = Email u).

(** [db.Create(user)]: runs the BeforeCreate hook and the timestamp
    defaults on the caller's struct, then inserts.  The insert fails with
    the driver's error when the store is at fault, with
    [ErrDuplicatedKey] when a key or unique index is violated (the
    translated error [userRepository.Create] tests for; the connection is
    opened by internal/database, which is not among the sources), and
    appends the row otherwise.  Returns [result.Error], the caller's
    struct as the call left it, and the database. *)
Definition Create (w : World) (u : User) (db : DB)
  : option error * User * DB :=
  let u' := autoTime w (BeforeCreate w u) in
  match db_fault w with
  | Some msg => (Some (gorm_Error msg), u', db)
  | None =>
      if existsb (collides u') (users db)
      then (Some gorm_ErrDuplicatedKey, u', db)
      else (None, u', {| users := users db ++ [u'] |})
  end.

(** [db.Where(cond).First(&user)]: the matching row, or
    [ErrRecordNotFound]; the driver's error when the store is at fault. *)
Definition First (w : World) (cond : User -> bool) (db : DB)
  : result User :=
  match db_fault w with
  | Some msg => Err (gorm_Error msg)
  | None =>
      match find cond (users db) with
      | Some r => Ok r
      | None => Err gorm_ErrRecordNotFound
      end
  end.

End gorm.

(* ===================================================================== *)
(** ** package repository *)
(* ===================================================================== *)

Module repository.

(** [type UserRepository interface]: a table of methods over the state
    [S] of the implementation. *)
Record UserRepository (S : Type) : Type := {
  Create : World -> User -> S -> option error * User * S;
  GetByID : World -> string -> S -> result User * S;
  GetByEmail : World -> string -> S -> result User * S
}.
#[global] Arguments Create {S} _ _ _ _.
#[global] Arguments GetByID {S} _ _ _ _.
#[global] Arguments GetByEmail {S} _ _ _ _.

(** [userRepository.Create] *)
Definition userRepository_Create (w : World) (user : User) (db : gorm.DB)
  : option error * User * gorm.DB :=
  match gorm.Create w user db with
  | (Some err, user', db') =>
      if errors.Is err gorm_ErrDuplicatedKey
      then (Some ErrDuplicateEmail, user', db')
      else (Some err, user', db')
  | (None, user', db') => (None, user', db')
  end.

(** [userRepository.GetByID] *)
Definition userRepository_GetByID (w : World) (id : string) (db : gorm.DB)
  : result User * gorm.DB :=
  match gorm.First w (fun r => bool_decide (ID r = id)) db with
  | Err err =>
      if errors.Is err gorm_ErrRecordNotFound
      then (Err ErrUserNotFound, db)
      else (Err err, db)
  | Ok user => (Ok user, db)
  end.

(** [userRepository.GetByEmail] *)
Definition userRepository_GetByEmail (w : World) (email : string)
    (db : gorm.DB) : result User * gorm.DB :=
  match gorm.First w (fun r => bool_decide (Email r = email)) db with
  | Err err =>
      if errors.Is err gorm_ErrRecordNotFound
      then (Err ErrUserNotFound, db)
      else (Err err, db)
  | Ok user => (Ok user, db)
  end.

(** [NewUserRepository] *)
Definition NewUserRepository : UserRepository gorm.DB :=
  {| Create := userRepository_Create;
     GetByID := userRepository_GetByID;
     GetByEmail := userRepository_GetByEmail |}.

End repository.

(* ===================================================================== *)
(** ** package util: the interface the service calls *)
(* ===================================================================== *)

Module util.

(** [util.Claims].  The service reads [UserID]; the type itself is code of
    package util, which is not among the sources.  Modelled from the spec:
    the other fields are the email that Issue is given and the issue and
    expiry instants of spec 3. *)
Record Claims : Type := {
  UserID : string;
  UserEmail : string;
  IssuedAt : Z;
  ExpiresAt : Z
}.

(** The four functions of package util, with the signatures of their call
    sites in package service.  Hashing draws entropy and the two token
    functions read the clock, so they take the [World]. *)
Class Util : Type := {
  HashPassword : World -> string -> result string;
  CheckPassword : string -> string -> bool;
  GenerateJWT : World -> string -> string -> string -> result string;
  ValidateJWT : World -> string -> string -> result Claims
}.

End util.
Export util.

(* ===================================================================== *)
(** ** package service *)
(* ===================================================================== *)

Module service.
Import repository.

(** [type UserService interface] *)
Record UserService (S : Type) : Type := {
  Register : World -> RegisterRequest.t -> S -> result User * S;
  Login : World -> LoginRequest.t -> S -> result LoginResponse.t * S;
  GetUserByID : World -> string -> S -> result User * S;
  ValidateToken : World -> string -> S -> result string * S
}.
#[global] Arguments Register {S} _ _ _ _.
#[global] Arguments Login {S} _ _ _ _.
#[global] Arguments GetUserByID {S} _ _ _ _.
#[global] Arguments ValidateToken {S} _ _ _ _.

(** [user.Password = ""] *)
Definition clearPassword (user : User) : User :=
  {| ID := ID user; Email := Email user; Name := Name user;
     Password := "";
     CreatedAt := CreatedAt user; UpdatedAt := UpdatedAt user |}.

Section userService.
Context {U : Util} {S : Type}.

Record userService : Type := {
  repo : UserRepository S;
  jwtSecret : string
}.

(** [userService.Register] *)
Definition userService_Register (s : userService) (w : World)
    (req : RegisterRequest.t) (st : S) : result User * S :=
  match HashPassword w (RegisterRequest.Password req) with
  | Err err => (Err (Errorf "failed to hash password" err), st)
  | Ok hashedPassword =>
      let user := {| ID := ""; Email := RegisterRequest.Email req;
                     Name := RegisterRequest.Name req;
                     Password := hashedPassword;
                     CreatedAt := 0; UpdatedAt := 0 |} in
      match Create (repo s) w user st with
      | (Some err, _, st') =>
          if errors.Is err ErrDuplicateEmail
          then (Err err, st')
          else (Err (Errorf "failed to create user" err), st')
      | (None, user', st') => (Ok (clearPassword user'), st')
      end
  end.

(** [userService.Login] *)
Definition userService_Login (s : userService) (w : World)
    (req : LoginRequest.t) (st : S) : result LoginResponse.t * S :=
  match GetByEmail (repo s) w (LoginRequest.Email req) st with
  | (Err err, st') =>
      if errors.Is err ErrUserNotFound
      then (Err ErrInvalidCredentials, st')
      else (Err (Errorf "failed to get user" err), st')
  | (Ok user, st') =>
      if negb (CheckPassword (LoginRequest.Password req) (Password user))
      then (Err ErrInvalidCredentials, st')
      else
        match GenerateJWT w (ID user) (Email user) (jwtSecret s) with
        | Err err => (Err (Errorf "failed to generate token" err), st')
        | Ok token =>
            (Ok {| LoginResponse.Token := token;
                   LoginResponse.User := clearPassword user |}, st')
        end
  end.

(** [userService.GetUserByID] *)
Definition userService_GetUserByID (s : userService) (w : World)
    (id : string) (st : S) : result User * S :=
  match GetByID (repo s) w id st with
  | (Err err, st') => (Err err, st')
  | (Ok user, st') => (Ok (clearPassword user), st')
  end.

(** [userService.ValidateToken] *)
Definition userService_ValidateToken (s : userService) (w : World)
    (token : string) (st : S) : result string * S :=
  match ValidateJWT w token (jwtSecret s) with
  | Err err => (Err err, st)
  | Ok claims => (Ok (UserID claims), st)
  end.

(** [NewUserService] *)
Definition NewUserService (repo : UserRepository S) (jwtSecret : string)
  : UserService S :=
  let s := {| repo := repo; jwtSecret := jwtSecret |} in
  {| Register := userService_Register s;
     Login := userService_Login s;
     GetUserByID := userService_GetUserByID s;
     ValidateToken := userService_ValidateToken s |}.

End userService.
#[global] Arguments userService {S}.

End service.

(* ===================================================================== *)
(** ** package handler *)
(* ===================================================================== *)

(** net/http status codes used by the handlers. *)
Module http.
Definition StatusOK : Z := 200.
Definition StatusCreated : Z := 201.
Definition StatusBadRequest : Z := 400.
Definition StatusUnauthorized : Z := 401.
Definition StatusNotFound : Z := 404.
Definition StatusConflict : Z := 409.
Definition StatusInternalServerError : Z := 500.
End http.

(** gin: what a handler reads from its context and what [c.JSON] writes. *)
Module gin.

(** The request: the outcome of [c.ShouldBindJSON(&req)] for a request
    struct of type [Req], and the path parameters. *)
Record Context (Req : Type) : Type := {
  ShouldBindJSON : result Req;
  Param : string -> string
}.
#[global] Arguments ShouldBindJSON {Req} _.
#[global] Arguments Param {Req} _ _.

Inductive Body : Type :=
| ErrorBody (e : ErrorResponse.t)
| UserBody (u : User)
| LoginBody (r : LoginResponse.t).

(** [c.JSON(status, body)] *)
Record Response : Type := JSON { Status : Z; Payload : Body }.

End gin.

(** The messages of package pb/user that ValidateToken exchanges. *)
Module pb.
Module ValidateTokenRequest.
Record t : Type := { Token : string }.
End ValidateTokenRequest.
Module ValidateTokenResponse.
Record t : Type := { Valid : bool; UserId : string; Message : string }.
End ValidateTokenResponse.
End pb.

Module handler.
Import service.

Section handlers.
Context {S : Type}.

Record HTTPHandler : Type := { http_service : UserService S }.
Record GRPCHandler : Type := { grpc_service : UserService S }.

Definition NewHTTPHandler (service : UserService S) : HTTPHandler :=
  {| http_service := service |}.
Definition NewGRPCHandler (service : UserService S) : GRPCHandler :=
  {| grpc_service := service |}.

Definition errorJSON (status : Z) (msg : string) : gin.Response :=
  gin.JSON status (gin.ErrorBody {| ErrorResponse.Error := msg |}).

(** [HTTPHandler.Register] *)
Definition HTTPHandler_Register (h : HTTPHandler) (w : World)
    (c : gin.Context RegisterRequest.t) (st : S) : gin.Response * S :=
  match gin.ShouldBindJSON c with
  | Err err => (errorJSON http.StatusBadRequest (errors.Error err), st)
  | Ok req =>
      match Register (http_service h) w req st with
      | (Err err, st') =>
          if errors.Is err ErrDuplicateEmail
          then (errorJSON http.StatusConflict "Email already exists", st')
          else (errorJSON http.StatusInternalServerError
                  "Failed to register user", st')
      | (Ok user, st') =>
          (gin.JSON http.StatusCreated (gin.UserBody user), st')
      end
  end.

(** [HTTPHandler.Login] *)
Definition HTTPHandler_Login (h : HTTPHandler) (w : World)
    (c : gin.Context LoginRequest.t) (st : S) : gin.Response * S :=
  match gin.ShouldBindJSON c with
  | Err err => (errorJSON http.StatusBadRequest (errors.Error err), st)
  | Ok req =>
      match Login (http_service h) w req st with
      | (Err err, st') =>
          if errors.Is err ErrInvalidCredentials
          then (errorJSON http.StatusUnauthorized
                  "Invalid email or password", st')
          else (errorJSON http.StatusInternalServerError
                  "Failed to login", st')
      | (Ok response, st') =>
          (gin.JSON http.StatusOK (gin.LoginBody response), st')
      end
  end.

(** [HTTPHandler.GetUser] *)
Definition HTTPHandler_GetUser (h : HTTPHandler) (w : World)
    (c : gin.Context unit) (st : S) : gin.Response * S :=
  let id := gin.Param c "id" in
  match GetUserByID (http_service h) w id st with
  | (Err err, st') =>
      if errors.Is err ErrUserNotFound
      then (errorJSON http.StatusNotFound "User not found", st')
      else (errorJSON http.StatusInternalServerError
              "Failed to get user", st')
  | (Ok user, st') => (gin.JSON http.StatusOK (gin.UserBody user), st')
  end.

(** [GRPCHandler.ValidateToken]: returns the Go pair
    [(response, error)], the response being a pointer. *)
Definition GRPCHandler_ValidateToken (h : GRPCHandler) (w : World)
    (req : pb.ValidateTokenRequest.t) (st : S)
  : (option pb.ValidateTokenResponse.t * option error) * S :=
  if bool_decide (pb.ValidateTokenRequest.Token req = "")
  then ((Some {| pb.ValidateTokenResponse.Valid := false;
                 pb.ValidateTokenResponse.UserId := "";
                 pb.ValidateTokenResponse.Message := "token is required" |},
         None), st)
  else
    match ValidateToken (grpc_service h) w
            (pb.ValidateTokenRequest.Token req) st with
    | (Err err, st') =>
        ((Some {| pb.ValidateTokenResponse.Valid := false;
                  pb.ValidateTokenResponse.UserId := "";
                  pb.ValidateTokenResponse.Message := errors.Error err |},
          None), st')
    | (Ok userID, st') =>
        ((Some {| pb.ValidateTokenResponse.Valid := true;
                  pb.ValidateTokenResponse.UserId := userID;
                  pb.ValidateTokenResponse.Message := "token is valid" |},
          None), st')
    end.

End handlers.
#[global] Arguments HTTPHandler : clear implicits.
#[global] Arguments GRPCHandler : clear implicits.

End handler.

(* ===================================================================== *)
(** ** package config *)
(* ===================================================================== *)

Module config.

Record Config : Type := {
  DatabaseURL : string;
  JWTSecret : string;
  HTTPPort : string;
  GRPCPort : string;
  Environment : string
}.

(** The process environment: a map from variable names to values. *)
Abbreviation environ := (gmap string string).

(** [os.Getenv]: the value, or the empty string when the variable is
    unset. *)
Definition os_Getenv (env : environ) (key : string) : string :=
  default "" (env !! key).

(** [godotenv.Load()]: when a .env file exists, each of its variables that
    the environment does not have yet is set; variables already present
    keep their value.  Its error is discarded by the caller. *)
Definition godotenv_Load (dotenv : option environ) (env : environ)
  : environ :=
  match dotenv with
  | Some file => env ∪ file
  | None => env
  end.

(** [getEnv] *)
Definition getEnv (env : environ) (key defaultValue : string) : string :=
  let value := os_Getenv env key in
  if bool_decide (value ≠ "") then value else defaultValue.

(** [Load] *)
Definition Load (dotenv : option environ) (env0 : environ)
  : result Config :=
  let env := godotenv_Load dotenv env0 in
  let cfg := {|
    DatabaseURL := getEnv env "DATABASE_URL" "";
    JWTSecret := getEnv env "JWT_SECRET"
                   "your-secret-key-change-in-production";
    HTTPPort := getEnv env "HTTP_PORT" "8080";
    GRPCPort := getEnv env "GRPC_PORT" "50051";
    Environment := getEnv env "ENVIRONMENT" "development" |} in
  if bool_decide (DatabaseURL cfg = "")
  then Err (New "DATABASE_URL is required")
  else Ok cfg.

End config.

(* ===================================================================== *)
(** ** Text framing shared by the two codecs *)
(* ===================================================================== *)

(** Modelled from the spec: the layout of a stored hash and of a token is
    code of package util, which is not among the sources, and the spec
    leaves the framing open (spec 6).  Both are laid out here as fields in
    hexadecimal joined by a separator, so that a stored hash embeds its
    parameters and salt (spec 3) and a token its claims and signature. *)
Module text.

Definition hexdigit (n : N) : ascii :=
  match n with
  | 0 => "0" | 1 => "1" | 2 => "2" | 3 => "3" | 4 => "4" | 5 => "5"
  | 6 => "6" | 7 => "7" | 8 => "8" | 9 => "9" | 10 => "a" | 11 => "b"
  | 12 => "c" | 13 => "d" | 14 => "e" | _ => "f"
  end%N%char.

Definition unhexdigit (c : ascii) : option N :=
  let n := N_of_ascii c in
  if bool_decide (48 ≤ n ≤ 57)%N then Some (n - 48)%N
  else if bool_decide (97 ≤ n ≤ 102)%N then Some (n - 87)%N
  else None.

Definition hexhi (c : ascii) : ascii := hexdigit (N_of_ascii c / 16).
Definition hexlo (c : ascii) : ascii := hexdigit (N_of_ascii c mod 16).

(** Two lower-case hexadecimal digits per character. *)
Fixpoint hex (s : string) : string :=
  match s with
  | EmptyString => EmptyString
  | String c r => String (hexhi c) (String (hexlo c) (hex r))
  end.

Definition unhex2 (h l : ascii) : option ascii :=
  a ← unhexdigit h; b ← unhexdigit l; Some (ascii_of_N (16 * a + b)).

Fixpoint unhex (s : string) : option string :=
  match s with
  | EmptyString => Some EmptyString
  | String h (String l r) =>
      c ← unhex2 h l; t ← unhex r; Some (String c t)
  | String _ EmptyString => None
  end.


(** The fields between the occurrences of the separator, as Go's
    [strings.Split] returns them. *)
Fixpoint split (sep : ascii) (s : string) : list string :=
  match s with
  | EmptyString => [EmptyString]
  | String c r =>
      if bool_decide (c = sep) then EmptyString :: split sep r
      else match split sep r with
           | x :: xs => String c x :: xs
           | [] => [String c EmptyString]
           end
  end.

(** The fields with the separator between them, as Go's [strings.Join]. *)
Fixpoint join (sep : ascii) (l : list string) : string :=
  match l with
  | [] => EmptyString
  | [x] => x
  | x :: xs => x +:+ String sep (join sep xs)
  end.

(** Decimal text of an integer and its parser. *)
Definition format_int (z : Z) : string :=
  NilEmpty.string_of_int (Z.to_int z).

Definition parse_int (s : string) : option Z :=
  Z.of_int <$> NilEmpty.int_of_string s.

End text.

(* ===================================================================== *)
(** ** The credential codec and the token codec *)
(* ===================================================================== *)

Module codec.
Import text.

(** Modelled from the spec: the cryptographic primitives and the policy
    constants of package util, which is not among the sources, taken as
    parameters (spec 4.1, 4.2 and 6): the key-derivation function of the
    credential codec ([None]: the algorithm rejects the parameters), the
    parameters new hashes are made with, the symmetric signature of the
    token codec over a secret and a text ([None]: the signer fails), and
    the token lifetime in seconds. *)
Class Primitives : Type := {
  kdf : string -> string -> string -> option string;
  hash_params : string;
  mac : string -> string -> option string;
  token_lifetime : Z
}.

(** Modelled from the spec: the three ways spec 4.1 names for a stored
    hash not to verify. *)
Inductive mismatch : Type :=
| MalformedHash
| UnsupportedParameters
| WrongPassword.

Section model.
Context {P : Primitives}.

(** Modelled from the spec: util.HashPassword is not among the sources.
    Spec 4.1 Hash: a self-describing salted digest (the parameters and
    the salt are embedded next to the digest), a fresh salt drawn on
    each call, failure only when the entropy source or the algorithm
    fails. *)
Definition HashPassword (w : World) (plaintext : string)
  : result string :=
  match rand_Read w with
  | None => Err HashingFailure
  | Some salt =>
      match kdf hash_params salt plaintext with
      | None => Err HashingFailure
      | Some digest =>
          Ok (join "$" [hex hash_params; hex salt; hex digest])
      end
  end.

(** Modelled from the spec: the comparison inside util.CheckPassword,
    which is not among the sources.  Spec 4.1 Verify names three ways
    not to match: a malformed hash, an algorithm-parameter mismatch, a
    digest mismatch.  The parameters and the salt are read from the
    stored hash itself. *)
Definition compare (hash plaintext : string) : option mismatch :=
  match split "$" hash with
  | [a; b; c] =>
      match unhex a, unhex b, unhex c with
      | Some params, Some salt, Some digest =>
          match kdf params salt plaintext with
          | None => Some UnsupportedParameters
          | Some d =>
              if bool_decide (d = digest) then None
              else Some WrongPassword
          end
      | _, _, _ => Some MalformedHash
      end
  | _ => Some MalformedHash
  end.

(** Modelled from the spec: util.CheckPassword is not among the sources.
    Spec 4.1 Verify: always resolves to a boolean, true exactly when
    the comparison finds no mismatch. *)
Definition CheckPassword (plaintext hash : string) : bool :=
  match compare hash plaintext with
  | None => true
  | Some _ => false
  end.

(** Modelled from the spec: the text that is signed, which is the four
    claims of spec 3, each in hexadecimal, joined by dots. *)
Definition segments (c : Claims) : list string :=
  [hex (UserID c); hex (UserEmail c);
   hex (format_int (IssuedAt c)); hex (format_int (ExpiresAt c))].

(** Modelled from the spec: the signature segment of a token, the
    symmetric signature of spec 4.2 over the signed text, in hexadecimal;
    [None] when the signer fails. *)
Definition sign (secret : string) (segs : list string) : option string :=
  hex <$> mac secret (join "." segs).

(** Modelled from the spec: util.GenerateJWT is not among the sources.
    Spec 4.2 Issue: the token carries the subject, the issue instant
    and an expiry a fixed duration later, and a symmetric signature
    under the signing secret; issuance fails with IssuanceFailure (spec
    4.2 and 7), which here is when the signer fails. *)
Definition GenerateJWT (w : World) (userID email secret : string)
  : result string :=
  let claims := {| UserID := userID; UserEmail := email;
                   IssuedAt := time_Now w;
                   ExpiresAt := time_Now w + token_lifetime |} in
  match sign secret (segments claims) with
  | None => Err IssuanceFailure
  | Some signature => Ok (join "." (segments claims ++ [signature]))
  end.

(** Modelled from the spec: util.ValidateJWT is not among the sources.
    Spec 4.2 Decode: well-formedness first, then the signature, then
    the expiry, stopping at the first failure; a token is live while
    its expiry instant has not been reached. *)
Definition ValidateJWT (w : World) (token secret : string)
  : result Claims :=
  match split "." token with
  | [a; b; c; d; g] =>
      match unhex a, unhex b, unhex c ≫= parse_int,
            unhex d ≫= parse_int, unhex g with
      | Some sub, Some email, Some iat, Some exp, Some _ =>
          if bool_decide (sign secret [a; b; c; d] = Some g)
          then if bool_decide (time_Now w < exp)
               then Ok {| UserID := sub; UserEmail := email;
                          IssuedAt := iat; ExpiresAt := exp |}
               else Err Expired
          else Err SignatureInvalid
      | _, _, _, _, _ => Err Malformed
      end
  | _ => Err Malformed
  end.

(** Modelled from the spec: package util as the service sees it. *)
#[export] Instance model : Util :=
  {| util.HashPassword := HashPassword;
     util.CheckPassword := CheckPassword;
     util.GenerateJWT := GenerateJWT;
     util.ValidateJWT := ValidateJWT |}.

End model.

(** Modelled from the spec: a key padded with zero bytes to the block
    length, which is how a signature of the HMAC class (spec 4.2) takes a
    key shorter than its block. *)
Fixpoint zeros (n : nat) : string :=
  match n with
  | O => EmptyString
  | S n => String Ascii.zero (zeros n)
  end.

Definition pad_key (block : nat) (key : string) : string :=
  key +:+ zeros (block - String.length key).

(** Modelled from the spec: an instantiation of the primitives on which
    the definitions run; the scenario uses it.  Its signer refuses the
    empty secret and pads a short secret to a block of eight. *)
Definition sample : Primitives :=
  {| kdf := fun params salt plaintext =>
              Some (params +:+ ":" +:+ salt +:+ ":" +:+ plaintext);
     hash_params := "2a$10";
     mac := fun secret message =>
              if bool_decide (secret = "") then None
              else Some (pad_key 8 secret +:+ "/" +:+ message);
     token_lifetime := 86400 |}.

End codec.

(* ===================================================================== *)
(** ** The directory over time, and the status table of the facade *)
(* ===================================================================== *)

Module directory.
Import service.

(** No two stored accounts share an email. *)
Definition unique_emails (db : gorm.DB) : Prop :=
  NoDup (Email <$> gorm.users db).

(** The email is already present in the directory. *)
Definition email_present (email : string) (db : gorm.DB) : Prop :=
  email ∈ (Email <$> gorm.users db).

(** One inbound call on the engine, with what it reads from outside. *)
Inductive call : Type :=
| CallRegister (w : World) (req : RegisterRequest.t)
| CallLogin (w : World) (req : LoginRequest.t)
| CallGetUserByID (w : World) (id : string)
| CallValidateToken (w : World) (token : string).

(** The database after one call. *)
Definition step (svc : UserService gorm.DB) (c : call) (db : gorm.DB)
  : gorm.DB :=
  match c with
  | CallRegister w req => snd (Register svc w req db)
  | CallLogin w req => snd (Login svc w req db)
  | CallGetUserByID w id => snd (GetUserByID svc w id db)
  | CallValidateToken w token => snd (ValidateToken svc w token db)
  end.

(** The database after a sequence of calls, oldest first. *)
Definition run (svc : UserService gorm.DB) (calls : list call)
    (db : gorm.DB) : gorm.DB :=
  foldl (fun db c => step svc c db) db calls.

End directory.

Module facade.

(** The status table in the words of spec 4.4, for an engine error:
    DuplicateEmail is a conflict, InvalidCredentials is unauthorized,
    NotFound is not-found, everything else is an internal error. *)
Definition status_of_error (err : error) : Z :=
  if errors.Is err ErrDuplicateEmail then http.StatusConflict
  else if errors.Is err ErrInvalidCredentials then http.StatusUnauthorized
  else if errors.Is err ErrUserNotFound then http.StatusNotFound
  else http.StatusInternalServerError.

(** Malformed input is a bad request. *)
Definition status_of_malformed_input : Z := http.StatusBadRequest.

End facade.

(* ===================================================================== *)
(** ** A concrete scenario *)
(* ===================================================================== *)

(** The end-to-end scenario of spec 8.6, on the sample primitives: Ann
    registers, logs in, and her token is checked at once and after it has
    expired. *)
Module scenario.
Import repository service.

#[local] Existing Instance codec.sample.

Definition secret : string := "k".

(** Package util on the sample primitives. *)
Definition util : Util := codec.model (P:=codec.sample).
#[local] Existing Instance util.

Definition engine : userService (S:=gorm.DB) :=
  {| repo := NewUserRepository; jwtSecret := secret |}.

Definition svc : UserService gorm.DB :=
  NewUserService NewUserRepository secret.

Definition w0 : World :=
  {| time_Now := 1000; uuid_New := "u-1"; rand_Read := Some "salt-1";
     db_fault := None |}.
Definition w1 : World :=
  {| time_Now := 2000; uuid_New := "u-2"; rand_Read := Some "salt-2";
     db_fault := None |}.
Definition late : World :=
  {| time_Now := 100000; uuid_New := "u-3"; rand_Read := Some "salt-3";
     db_fault := None |}.

Definition ann : RegisterRequest.t :=
  {| RegisterRequest.Email := "a@x.com"; RegisterRequest.Name := "Ann";
     RegisterRequest.Password := "secret1" |}.
Definition ann_login : LoginRequest.t :=
  {| LoginRequest.Email := "a@x.com"; LoginRequest.Password := "secret1" |}.
Definition ann_wrong : LoginRequest.t :=
  {| LoginRequest.Email := "a@x.com"; LoginRequest.Password := "wrong" |}.
Definition bob_login : LoginRequest.t :=
  {| LoginRequest.Email := "b@x.com"; LoginRequest.Password := "secret1" |}.

(** The database once Ann has registered. *)
Definition db1 : gorm.DB := snd (userService_Register engine w0 ann gorm.empty).

(** The token Ann is issued at [w1]. *)
Definition ann_token : string :=
  match fst (userService_Login engine w1 ann_login db1) with
  | Ok resp => LoginResponse.Token resp
  | Err _ => ""
  end.

(** Ann's registration as the HTTP handler receives it. *)
Definition ann_request : gin.Context RegisterRequest.t :=
  {| gin.ShouldBindJSON := Ok ann; gin.Param := fun _ => "" |}.

(** A process environment that sets DATABASE_URL only. *)
Definition environment : gmap string string :=
  {[ "DATABASE_URL" := "postgres://localhost/golearn" ]}.

End scenario.

(* ===================================================================== *)
(** ** package handler: GRPCHandler.GetUser *)
(* ===================================================================== *)

(** google.golang.org/grpc/codes: the codes the handler uses. *)
Module codes.
Inductive Code : Type := OK | InvalidArgument | NotFound | Internal.
End codes.

(** google.golang.org/grpc/status: [status.Error(code, msg)], the only
    non-nil error a handler of the RPC transport returns. *)
Module status.
Record Status : Type := Error { Code : codes.Code; Message : string }.
End status.

(** The messages of package pb/user that GetUser exchanges. *)
Module pbuser.
Module GetUserRequest.
Record t : Type := { UserId : string }.
End GetUserRequest.
Module GetUserResponse.
Record t : Type := {
  Id : string; Email : string; Name : string; CreatedAt : string
}.
End GetUserResponse.
End pbuser.

(** [time.Time.Format]: the text of an instant under a layout.  The
    standard library's formatter is taken as a parameter. *)
Class TimeFormat : Type := { Format : Z → string → string }.

Module grpc_handler.
Import service handler.

Section get_user.
Context {S : Type} {F : TimeFormat}.

(** [GRPCHandler.GetUser]: returns the Go pair [(response, error)]. *)
Definition GRPCHandler_GetUser (h : GRPCHandler S) (w : World)
    (req : pbuser.GetUserRequest.t) (st : S)
  : (option pbuser.GetUserResponse.t * option status.Status) * S :=
  if bool_decide (pbuser.GetUserRequest.UserId req = "")
  then ((None, Some (status.Error codes.InvalidArgument
                       "user_id is required")), st)
  else
    match GetUserByID (grpc_service h) w
            (pbuser.GetUserRequest.UserId req) st with
    | (Err err, st') =>
        if errors.Is err ErrUserNotFound
        then ((None, Some (status.Error codes.NotFound "user not found")),
              st')
        else ((None, Some (status.Error codes.Internal
                             "failed to get user")), st')
    | (Ok u, st') =>
        ((Some {| pbuser.GetUserResponse.Id := ID u;
                  pbuser.GetUserResponse.Email := Email u;
                  pbuser.GetUserResponse.Name := Name u;
                  pbuser.GetUserResponse.CreatedAt :=
                    Format (CreatedAt u) "2006-01-02T15:04:05Z" |},
          None), st')
    end.

End get_user.

End grpc_handler.

(* ===================================================================== *)
(** ** The stored accounts *)
(* ===================================================================== *)

Module store.

(** No two stored accounts share an ID (the primary key). *)
Definition unique_ids (db : gorm.DB) : Prop :=
  NoDup (ID <$> gorm.users db).

(** A row of the table carries this ID. *)
Definition has_id (id : string) (db : gorm.DB) : Prop :=
  id ∈ (ID <$> gorm.users db).

(** The struct as [gorm.Create] inserts it: the hook has run and the zero
    timestamps are set. *)
Definition inserted (w : World) (u : User) : User :=
  gorm.autoTime w (BeforeCreate w u).

End store.

(** Further inputs for the scenario: the store down, a second account, a
    formatter that prints the seconds. *)
Module cases.
Import repository service.

Definition down : World :=
  {| time_Now := 3000; uuid_New := "u-4"; rand_Read := Some "salt-4";
     db_fault := Some "connection refused" |}.

Definition bob : RegisterRequest.t :=
  {| RegisterRequest.Email := "b@x.com"; RegisterRequest.Name := "Bob";
     RegisterRequest.Password := "hunter22" |}.

(** Ann's row as the database holds it. *)
Definition ann_row : User :=
  {| ID := "u-1"; Email := "a@x.com"; Name := "Ann";
     Password := "3261243130$73616c742d31$32612431303a73616c742d313a73656372657431";
     CreatedAt := 1000; UpdatedAt := 1000 |}.

(** A struct that presets Ann's ID under a new email. *)
Definition same_id : User :=
  {| ID := "u-1"; Email := "c@x.com"; Name := "Cy"; Password := "h";
     CreatedAt := 0; UpdatedAt := 0 |}.

Definition seconds : TimeFormat :=
  {| Format := fun t _ => text.format_int t |}.

Definition with_dotenv : gmap string string :=
  {[ "DATABASE_URL" := "postgres://dotenv/golearn"; "HTTP_PORT" := "9090" ]}.

Definition ann_lookup : pbuser.GetUserRequest.t :=
  {| pbuser.GetUserRequest.UserId := "u-1" |}.

(** Bob's struct as a caller hands it to the repository. *)
Definition bob_struct : User :=
  {| ID := ""; Email := "b@x.com"; Name := "Bob"; Password := "h2";
     CreatedAt := 0; UpdatedAt := 0 |}.

(** Ann's account as the engine returns it. *)
Definition ann_account : User := clearPassword ann_row.


(** The engine over a secret the sample signer refuses, and Ann's login
    as the HTTP handler receives it. *)
Definition unsigned : UserService gorm.DB :=
  NewUserService (U:=scenario.util) NewUserRepository "".

Definition ann_login_request : gin.Context LoginRequest.t :=
  {| gin.ShouldBindJSON := Ok scenario.ann_login; gin.Param := fun _ => "" |}.

(** Bob registers after Ann. *)
Definition then_bob : list directory.call :=
  [directory.CallRegister scenario.w1 bob].

End cases.

(* ===================================================================== *)
(** * Facts *)
(* ===================================================================== *)

(** ** The scenario of spec 8.6, evaluated *)

Example scenario_register :
  fst (service.Register scenario.svc scenario.w0 scenario.ann gorm.empty)
  = Ok {| ID := "u-1"; Email := "a@x.com"; Name := "Ann"; Password := "";
          CreatedAt := 1000; UpdatedAt := 1000 |}.
Proof. vm_compute. reflexivity. Qed.

Example scenario_stored_hash_verifies :
  (λ u, codec.CheckPassword (P:=codec.sample) "secret1" (Password u))
    <$> gorm.users scenario.db1 = [true].
Proof. vm_compute. reflexivity. Qed.

Example scenario_login_then_validate :
  fst (service.ValidateToken scenario.svc scenario.w1 scenario.ann_token
         scenario.db1) = Ok "u-1".
Proof. vm_compute. reflexivity. Qed.

Example scenario_wrong_password :
  fst (service.Login scenario.svc scenario.w1 scenario.ann_wrong
         scenario.db1) = Err ErrInvalidCredentials.
Proof. vm_compute. reflexivity. Qed.

Example scenario_unknown_id :
  fst (service.GetUserByID scenario.svc scenario.w1 "no-such-id"
         scenario.db1) = Err ErrUserNotFound.
Proof. vm_compute. reflexivity. Qed.

Example scenario_register_twice :
  service.Register scenario.svc scenario.w1 scenario.ann scenario.db1
  = (Err ErrDuplicateEmail, scenario.db1).
Proof. vm_compute. reflexivity. Qed.

Example scenario_store_down :
  fst (service.Register scenario.svc
         {| time_Now := 2000; uuid_New := "u-2"; rand_Read := Some "salt-2";
            db_fault := Some "connection refused" |}
         scenario.ann scenario.db1)
  = Err (Errorf "failed to create user" (gorm_Error "connection refused")).
Proof. vm_compute. reflexivity. Qed.

Example scenario_issuance_failure :
  fst (service.Login cases.unsigned scenario.w1 scenario.ann_login
         scenario.db1)
  = Err (Errorf "failed to generate token" IssuanceFailure).
Proof. vm_compute. reflexivity. Qed.

Example status_table :
  facade.status_of_error ErrDuplicateEmail = 409 ∧
  facade.status_of_error ErrInvalidCredentials = 401 ∧
  facade.status_of_error ErrUserNotFound = 404 ∧
  facade.status_of_error
    (Errorf "failed to create user" (gorm_Error "connection refused")) = 500 ∧
  facade.status_of_malformed_input = 400.
Proof. repeat split; reflexivity. Qed.

Example split_dots : text.split "." "6162..63" = ["6162"; ""; "63"].
Proof. reflexivity. Qed.

Example hex_text : text.hex "a@x" = "614078".
Proof. reflexivity. Qed.

(** ** Errors *)

Lemma Is_refl (err : error) : errors.Is err err = true.
Proof.
  destruct err; cbn [errors.Is]; rewrite bool_decide_eq_true_2 by done; done.
Qed.

Lemma Is_Errorf (prefix : string) (cause target : error) :
  target ≠ Errorf prefix cause →
  errors.Is (Errorf prefix cause) target = errors.Is cause target.
Proof.
  intros Hne. cbn [errors.Is].
  rewrite bool_decide_eq_false_2; [done | congruence].
Qed.

(** ** Text framing *)

Section text_facts.
Import text.
















End text_facts.

(** ** The codecs *)

Section codec_facts.
Import text codec.
Context {P : Primitives}.








End codec_facts.

(** ** The engine, for every implementation of package util and of the
       repository *)

Section engine_facts.
Import repository service handler.
Context {U : Util} {S : Type}.
Implicit Types (s : userService (S:=S)) (w : World) (st : S).

(** The three ways [Login] fails before a token is issued. *)
Lemma Login_not_found s w req st err st' :
  GetByEmail (repo s) w (LoginRequest.Email req) st = (Err err, st') →
  errors.Is err ErrUserNotFound = true →
  userService_Login s w req st = (Err ErrInvalidCredentials, st').
Proof. intros Hget His. unfold userService_Login. by rewrite Hget, His. Qed.

Lemma Login_storage_failure s w req st err st' :
  GetByEmail (repo s) w (LoginRequest.Email req) st = (Err err, st') →
  errors.Is err ErrUserNotFound = false →
  userService_Login s w req st
  = (Err (Errorf "failed to get user" err), st').
Proof. intros Hget His. unfold userService_Login. by rewrite Hget, His. Qed.

Lemma Login_wrong_password s w req st user st' :
  GetByEmail (repo s) w (LoginRequest.Email req) st = (Ok user, st') →
  CheckPassword (LoginRequest.Password req) (Password user) = false →
  userService_Login s w req st = (Err ErrInvalidCredentials, st').
Proof. intros Hget Hchk. unfold userService_Login. by rewrite Hget, Hchk. Qed.

(** A successful [Login]: the account found, its password verified, and
    a token issued for its ID and email under the service's secret. *)
Lemma Login_Ok s w req st resp st' :
  userService_Login s w req st = (Ok resp, st') →
  ∃ user,
    GetByEmail (repo s) w (LoginRequest.Email req) st = (Ok user, st') ∧
    CheckPassword (LoginRequest.Password req) (Password user) = true ∧
    GenerateJWT w (ID user) (Email user) (jwtSecret s)
    = Ok (LoginResponse.Token resp) ∧
    LoginResponse.User resp = clearPassword user.
Proof.
  unfold userService_Login.
  destruct (GetByEmail _ _ _ _) as [[user|err] st1].
  - destruct (CheckPassword _ _) eqn:Hchk; cbn [negb]; [| done].
    destruct (GenerateJWT _ _ _ _) as [token|err] eqn:Hgen; [| done].
    intros [= <- <-]. exists user. done.
  - destruct (errors.Is _ _); done.
Qed.

End engine_facts.

(* ===================================================================== *)
(** * The claims *)
(* ===================================================================== *)

Section claims_generic.
Import repository service handler.
Context {U : Util} {S : Type}.

(** C2.  For every login request: when the directory does not find the
    email, Login fails with ErrInvalidCredentials; when it finds the
    email and the password does not verify, Login fails with the very
    same ErrInvalidCredentials; the HTTP handler renders both as the same
    response; and no failure of Login is the plain ErrUserNotFound, nor
    does the error of a failed lookup wrap it. *)
Theorem login_failures_indistinguishable
    (s : userService (S:=S)) (w : World) (req : LoginRequest.t) (st : S) :
  (∀ err st',
      GetByEmail (repo s) w (LoginRequest.Email req) st = (Err err, st') →
      errors.Is err ErrUserNotFound = true →
      userService_Login s w req st = (Err ErrInvalidCredentials, st')) ∧
  (∀ user st',
      GetByEmail (repo s) w (LoginRequest.Email req) st = (Ok user, st') →
      CheckPassword (LoginRequest.Password req) (Password user) = false →
      userService_Login s w req st = (Err ErrInvalidCredentials, st')) ∧
  (∀ c st',
      gin.ShouldBindJSON c = Ok req →
      userService_Login s w req st = (Err ErrInvalidCredentials, st') →
      HTTPHandler_Login
        (NewHTTPHandler (NewUserService (repo s) (jwtSecret s))) w c st
      = (errorJSON http.StatusUnauthorized "Invalid email or password",
         st')) ∧
  (∀ err st',
      userService_Login s w req st = (Err err, st') →
      err ≠ ErrUserNotFound ∧
      (errors.is_Ok
         (fst (GetByEmail (repo s) w (LoginRequest.Email req) st)) = false →
       errors.Is err ErrUserNotFound = false)).
Proof.
  split; [| split; [| split]].
  - intros err st'. apply Login_not_found.
  - intros user st'. apply Login_wrong_password.
  - intros c st' Hbind Hlogin. destruct s as [r k].
    unfold HTTPHandler_Login, NewHTTPHandler, NewUserService.
    cbn [http_service Login repo jwtSecret] in *.
    rewrite Hbind, Hlogin. reflexivity.
  - intros err st'. unfold userService_Login.
    destruct (GetByEmail _ _ _ _) as [[user|e] st1]; cbn [fst errors.is_Ok].
    + destruct (CheckPassword _ _); cbn [negb].
      * destruct (GenerateJWT _ _ _ _); [done |].
        intros [= <- <-]. split; done.
      * intros [= <- <-]. split; done.
    + destruct (errors.Is e ErrUserNotFound) eqn:His.
      * intros [= <- <-]. split; done.
      * intros [= <- <-]. split; [done |]. intros _.
        rewrite Is_Errorf by done. exact His.
Qed.

(** C3.  Every successful Register, Login and GetUserByID returns an
    account whose Password field is the empty string. *)
Theorem returned_account_password_cleared
    (s : userService (S:=S)) (w : World) (st : S) :
  (∀ req user st',
      userService_Register s w req st = (Ok user, st') →
      Password user = "") ∧
  (∀ req resp st',
      userService_Login s w req st = (Ok resp, st') →
      Password (LoginResponse.User resp) = "") ∧
  (∀ id user st',
      userService_GetUserByID s w id st = (Ok user, st') →
      Password user = "").
Proof.
  split; [| split].
  - intros req user st'. unfold userService_Register.
    destruct (HashPassword _ _) as [h|e]; [| done].
    destruct (Create _ _ _ _) as [[[e|] u'] st1].
    + destruct (errors.Is _ _); done.
    + intros [= <- <-]. reflexivity.
  - intros req resp st' (user & _ & _ & _ & ->)%Login_Ok. reflexivity.
  - intros id user st'. unfold userService_GetUserByID.
    destruct (GetByID _ _ _ _) as [[u|e] st1]; [| done].
    intros [= <- <-]. reflexivity.
Qed.

(** C9.  The RPC handler of ValidateToken returns a response and a nil
    error for every request and every service: for the empty token,
    Valid=false with the message "token is required" (the service is not
    called); when the service fails, Valid=false with the text of its
    error; when it succeeds, Valid=true with the subject identifier. *)
Theorem grpc_validate_token_always_responds
    (h : GRPCHandler S) (w : World) (req : pb.ValidateTokenRequest.t)
    (st : S) :
  ∃ resp st',
    GRPCHandler_ValidateToken h w req st = ((Some resp, None), st') ∧
    (pb.ValidateTokenRequest.Token req = "" →
     st' = st ∧
     resp = {| pb.ValidateTokenResponse.Valid := false;
               pb.ValidateTokenResponse.UserId := "";
               pb.ValidateTokenResponse.Message := "token is required" |}) ∧
    (pb.ValidateTokenRequest.Token req ≠ "" →
     ∀ err st1,
       ValidateToken (grpc_service h) w
         (pb.ValidateTokenRequest.Token req) st = (Err err, st1) →
       st' = st1 ∧
       resp = {| pb.ValidateTokenResponse.Valid := false;
                 pb.ValidateTokenResponse.UserId := "";
                 pb.ValidateTokenResponse.Message := errors.Error err |}) ∧
    (pb.ValidateTokenRequest.Token req ≠ "" →
     ∀ userID st1,
       ValidateToken (grpc_service h) w
         (pb.ValidateTokenRequest.Token req) st = (Ok userID, st1) →
       st' = st1 ∧
       resp = {| pb.ValidateTokenResponse.Valid := true;
                 pb.ValidateTokenResponse.UserId := userID;
                 pb.ValidateTokenResponse.Message := "token is valid" |}).
Proof.
  unfold GRPCHandler_ValidateToken.
  case_bool_decide as Hempty.
  - eexists _, _. split; [reflexivity |]. repeat split; done.
  - destruct (ValidateToken _ _ _ _) as [[userID|err] st1].
    + eexists _, _. split; [reflexivity |].
      split; [done |]. split; intros _ ? ? [= <- <-]; done.
    + eexists _, _. split; [reflexivity |].
      split; [done |]. split; intros _ ? ? [= <- <-]; done.
Qed.

End claims_generic.

Section claims_validate_token.
Import repository service handler.
Context {U : Util} {S : Type}.

(** C1, as the code has it.  For every token whose decode fails,
    ValidateToken fails with the error the decoder returned, unchanged:
    the engine puts no Invalid kind of its own in its place, so two
    tokens whose decode failures differ fail ValidateToken with different
    errors. *)
Theorem validate_token_returns_decode_error
    (s : userService (S:=S)) (w : World) (token : string) (st : S)
    (err : error) :
  ValidateJWT w token (jwtSecret s) = Err err →
  userService_ValidateToken s w token st = (Err err, st) ∧
  ∀ (w' : World) (token' : string) (st' : S) (err' : error),
    ValidateJWT w' token' (jwtSecret s) = Err err' →
    err' ≠ err →
    fst (userService_ValidateToken s w' token' st')
    ≠ fst (userService_ValidateToken s w token st).
Proof.
  intros Hdec.
  assert (∀ w0 token0 st0 err0,
            ValidateJWT w0 token0 (jwtSecret s) = Err err0 →
            userService_ValidateToken s w0 token0 st0 = (Err err0, st0))
    as Hthrough.
  { intros w0 token0 st0 err0 H0. unfold userService_ValidateToken.
    by rewrite H0. }
  split; [by apply Hthrough |].
  intros w' token' st' err' Hdec' Hne.
  rewrite (Hthrough _ _ st' _ Hdec'), (Hthrough _ _ st _ Hdec).
  cbn [fst]. congruence.
Qed.

End claims_validate_token.

(** C1, as stated, fails: on the scenario's engine a malformed token and an
    expired token make ValidateToken fail with two different errors, so no
    single error is returned for every token whose decode fails. *)
Lemma validate_token_failures_differ :
  ¬ ∃ invalid : error,
      ∀ (w : World) (token : string) (st : gorm.DB),
        errors.is_Ok
          (codec.ValidateJWT (P:=codec.sample) w token scenario.secret)
        = false →
        service.userService_ValidateToken (U:=scenario.util) scenario.engine w token st
        = (Err invalid, st).
Proof.
  intros [invalid H].
  assert (service.userService_ValidateToken (U:=scenario.util) scenario.engine scenario.w1 "x"
            gorm.empty = (Err invalid, gorm.empty)) as Hmalformed
    by (apply H; vm_compute; reflexivity).
  assert (service.userService_ValidateToken (U:=scenario.util) scenario.engine scenario.late
            scenario.ann_token gorm.empty = (Err invalid, gorm.empty))
    as Hexpired
    by (apply H; vm_compute; reflexivity).
  vm_compute in Hmalformed, Hexpired. congruence.
Qed.

Lemma validate_token_returns_decode_error_witness :
  service.userService_ValidateToken (U:=scenario.util) scenario.engine
    scenario.late scenario.ann_token gorm.empty
  = (Err Expired, gorm.empty) ∧
  fst (service.userService_ValidateToken (U:=scenario.util) scenario.engine
         scenario.w1 "x" gorm.empty)
  ≠ fst (service.userService_ValidateToken (U:=scenario.util) scenario.engine
           scenario.late scenario.ann_token gorm.empty).
Proof.
  destruct (validate_token_returns_decode_error (U:=scenario.util)
              scenario.engine scenario.late scenario.ann_token gorm.empty
              Expired ltac:(vm_compute; reflexivity)) as [Hfail Hdiffer].
  split; [exact Hfail |].
  apply (Hdiffer scenario.w1 "x" gorm.empty Malformed).
  - vm_compute. reflexivity.
  - discriminate.
Defined.

Lemma login_failures_indistinguishable_witness :
  service.userService_Login (U:=scenario.util) scenario.engine scenario.w1 scenario.bob_login
    scenario.db1 = (Err ErrInvalidCredentials, scenario.db1) ∧
  service.userService_Login (U:=scenario.util) scenario.engine scenario.w1 scenario.ann_wrong
    scenario.db1 = (Err ErrInvalidCredentials, scenario.db1).
Proof.
  split.
  - apply (proj1 (login_failures_indistinguishable (U:=scenario.util)
                    scenario.engine scenario.w1 scenario.bob_login
                    scenario.db1) ErrUserNotFound scenario.db1);
      vm_compute; reflexivity.
  - destruct (repository.GetByEmail (service.repo scenario.engine)
                scenario.w1 (LoginRequest.Email scenario.ann_wrong)
                scenario.db1) as [[user|err] db'] eqn:Hget.
    + assert (db' = scenario.db1) as ->
        by (vm_compute in Hget; vm_compute; congruence).
      apply (proj1 (proj2 (login_failures_indistinguishable (U:=scenario.util)
                             scenario.engine scenario.w1 scenario.ann_wrong
                             scenario.db1)) user scenario.db1 Hget).
      vm_compute in Hget. injection Hget as <-. vm_compute; reflexivity.
    + vm_compute in Hget. discriminate.
Defined.

Lemma returned_account_password_cleared_witness :
  ∃ user db',
    service.userService_Register (U:=scenario.util) scenario.engine scenario.w0 scenario.ann
      gorm.empty = (Ok user, db') ∧
    Password user = "".
Proof.
  destruct (service.userService_Register (U:=scenario.util) scenario.engine scenario.w0
              scenario.ann gorm.empty) as [[user|err] db'] eqn:Hreg.
  - exists user, db'. split; [reflexivity |].
    exact (proj1 (returned_account_password_cleared (U:=scenario.util)
                    scenario.engine scenario.w0 gorm.empty)
             scenario.ann user db' Hreg).
  - vm_compute in Hreg. discriminate.
Defined.

Lemma grpc_validate_token_always_responds_witness :
  ∃ resp db',
    handler.GRPCHandler_ValidateToken (handler.NewGRPCHandler scenario.svc)
      scenario.w1 {| pb.ValidateTokenRequest.Token := "" |} scenario.db1
    = ((Some resp, None), db') ∧
    resp = {| pb.ValidateTokenResponse.Valid := false;
              pb.ValidateTokenResponse.UserId := "";
              pb.ValidateTokenResponse.Message := "token is required" |}.
Proof.
  destruct (grpc_validate_token_always_responds
              (handler.NewGRPCHandler scenario.svc) scenario.w1
              {| pb.ValidateTokenRequest.Token := "" |} scenario.db1)
    as (resp & db' & Heq & Hempty & _).
  exists resp, db'. split; [exact Heq |].
  apply Hempty. reflexivity.
Defined.

Section claims_codec.
Import text codec repository service.
Context {P : Primitives}.



End claims_codec.

(** ** The directory backed by gorm *)

Section directory_facts.
Import repository service directory.
Context {U : Util}.

Lemma BeforeCreate_Email (w : World) (u : User) :
  Email (BeforeCreate w u) = Email u.
Proof. unfold BeforeCreate. by case_bool_decide. Qed.

Lemma collides_present (u : User) (rows : list User) :
  Email u ∈ (Email <$> rows) → existsb (gorm.collides u) rows = true.
Proof.
  intros (r & Hr & Hin)%list_elem_of_fmap.
  apply existsb_exists. exists r. split; [by apply list_elem_of_In |].
  unfold gorm.collides. rewrite (bool_decide_eq_true_2 _ (eq_sym Hr)).
  apply orb_true_r.
Qed.

(** What the repository's Create does to the database: nothing, or one
    more row whose email was in no row. *)
Lemma userRepository_Create_db (w : World) (u : User) (db : gorm.DB) :
  match userRepository_Create w u db with
  | (Some _, _, db') => db' = db
  | (None, u', db') =>
      Email u' = Email u ∧ (Email u ∉ (Email <$> gorm.users db)) ∧
      db' = {| gorm.users := gorm.users db ++ [u'] |}
  end.
Proof.
  unfold userRepository_Create, gorm.Create.
  destruct (db_fault w); [done |].
  set (u' := gorm.autoTime w (BeforeCreate w u)).
  assert (Email u' = Email u) as Hmail by apply BeforeCreate_Email.
  destruct (existsb (gorm.collides u') (gorm.users db)) eqn:Hex; [done |].
  split; [done |]. split; [| done].
  intros Hin. rewrite <- Hmail in Hin.
  apply collides_present in Hin. congruence.
Qed.

Lemma userRepository_Create_present (w : World) (u : User) (db : gorm.DB) :
  db_fault w = None → email_present (Email u) db →
  ∃ u', userRepository_Create w u db = (Some ErrDuplicateEmail, u', db).
Proof.
  intros Hfault Hin. unfold userRepository_Create, gorm.Create.
  rewrite Hfault.
  set (u' := gorm.autoTime w (BeforeCreate w u)).
  assert (Email u' = Email u) as Hmail by apply BeforeCreate_Email.
  rewrite collides_present by (rewrite Hmail; exact Hin).
  exists u'. reflexivity.
Qed.

Lemma GetByEmail_db (w : World) (email : string) (db : gorm.DB) :
  snd (userRepository_GetByEmail w email db) = db.
Proof.
  unfold userRepository_GetByEmail.
  destruct (gorm.First _ _ _) as [user|err]; [done |].
  destruct (errors.Is _ _); done.
Qed.

Lemma GetByID_db (w : World) (id : string) (db : gorm.DB) :
  snd (userRepository_GetByID w id db) = db.
Proof.
  unfold userRepository_GetByID.
  destruct (gorm.First _ _ _) as [user|err]; [done |].
  destruct (errors.Is _ _); done.
Qed.

Lemma Register_db (secret : string) (w : World) (req : RegisterRequest.t)
    (db : gorm.DB) :
  let db' := snd (Register (NewUserService NewUserRepository secret)
                    w req db) in
  db' = db ∨
  ∃ u', Email u' = RegisterRequest.Email req ∧
        (RegisterRequest.Email req ∉ (Email <$> gorm.users db)) ∧
        db' = {| gorm.users := gorm.users db ++ [u'] |}.
Proof.
  cbn [Register NewUserService]. unfold userService_Register.
  destruct (HashPassword _ _) as [hashed|err]; [| by left].
  cbn [repo Create NewUserRepository].
  match goal with
  | |- context [userRepository_Create w ?u db] =>
      pose proof (userRepository_Create_db w u db) as Hc;
      destruct (userRepository_Create w u db) as [[[e|] u'] db']
  end.
  - subst db'. left. destruct (errors.Is _ _); done.
  - right. exists u'. exact Hc.
Qed.

Lemma step_unique_emails (secret : string) (c : call) (db : gorm.DB) :
  unique_emails db →
  unique_emails (step (NewUserService NewUserRepository secret) c db).
Proof.
  intros Huniq. destruct c as [w req|w req|w id|w token]; cbn [step].
  - destruct (Register_db secret w req db) as [-> | (u' & Hmail & Hfresh & ->)];
      [done |].
    unfold unique_emails in *. cbn [gorm.users].
    rewrite fmap_app. apply NoDup_app. split; [done |].
    split; [| apply NoDup_singleton].
    intros x Hx [->|[]%elem_of_nil]%elem_of_cons.
    cbn in Hx. rewrite Hmail in Hx. done.
  - cbn [Login NewUserService]. unfold userService_Login.
    cbn [repo GetByEmail NewUserRepository].
    pose proof (GetByEmail_db w (LoginRequest.Email req) db) as Hdb.
    destruct (userRepository_GetByEmail _ _ _) as [[user|err] db'];
      cbn [snd] in Hdb; subst db'.
    + destruct (negb _); [done |]. destruct (GenerateJWT _ _ _ _); done.
    + destruct (errors.Is _ _); done.
  - cbn [GetUserByID NewUserService]. unfold userService_GetUserByID.
    cbn [repo GetByID NewUserRepository].
    pose proof (GetByID_db w id db) as Hdb.
    destruct (userRepository_GetByID _ _ _) as [[user|err] db'];
      cbn [snd] in Hdb; subst db'; done.
  - cbn [ValidateToken NewUserService]. unfold userService_ValidateToken.
    destruct (ValidateJWT _ _ _); done.
Qed.

Lemma run_unique_emails (secret : string) (calls : list call)
    (db : gorm.DB) :
  unique_emails db →
  unique_emails (run (NewUserService NewUserRepository secret) calls db).
Proof.
  revert db. induction calls as [|c calls IH]; intros db Huniq; [done |].
  cbn [run foldl]. apply IH. by apply step_unique_emails.
Qed.

(** Two registrations of one email, in whichever order the directory
    takes them: on a database that has neither the email nor the fresh
    uuid, and with the store up, the first is stored and the second
    observes ErrDuplicateEmail. *)
Lemma Register_same_email_twice (secret : string) (w1 w2 : World)
    (req1 req2 : RegisterRequest.t) (db : gorm.DB) :
  let svc := NewUserService NewUserRepository secret in
  RegisterRequest.Email req1 = RegisterRequest.Email req2 →
  errors.is_Ok (HashPassword w1 (RegisterRequest.Password req1)) = true →
  errors.is_Ok (HashPassword w2 (RegisterRequest.Password req2)) = true →
  db_fault w1 = None → db_fault w2 = None →
  ¬ email_present (RegisterRequest.Email req1) db →
  uuid_New w1 ∉ (ID <$> gorm.users db) →
  ∃ user db',
    Register svc w1 req1 db = (Ok user, db') ∧
    Email user = RegisterRequest.Email req1 ∧
    Register svc w2 req2 db' = (Err ErrDuplicateEmail, db').
Proof.
  intros svc Hmail Hh1 Hh2 Hf1 Hf2 Habsent Hfresh.
  cbn [svc Register NewUserService]. unfold userService_Register.
  destruct (HashPassword w1 _) as [h1|] ; [| done].
  destruct (HashPassword w2 _) as [h2|] ; [| done].
  cbn [repo Create NewUserRepository].
  unfold userRepository_Create at 1. unfold gorm.Create at 1. rewrite Hf1.
  match goal with
  | |- context [existsb (gorm.collides ?u) (gorm.users db)] =>
      set (u1 := u);
      assert (existsb (gorm.collides u1) (gorm.users db) = false) as ->
  end.
  { destruct (existsb _ _) eqn:Hex; [| done]. exfalso.
    apply existsb_exists in Hex as (r & Hin%list_elem_of_In & Hcol).
    unfold gorm.collides in Hcol.
    apply orb_true_iff in Hcol as [Hid%bool_decide_eq_true
                                  | Hem%bool_decide_eq_true].
    - apply Hfresh. apply list_elem_of_fmap. exists r. split; [| done].
      rewrite Hid. reflexivity.
    - apply Habsent. unfold email_present. apply list_elem_of_fmap.
      exists r. split; [| done]. rewrite Hem. reflexivity. }
  eexists _, _. split; [reflexivity |]. split; [reflexivity |].
  match goal with
  | |- context [userRepository_Create w2 ?u ?d] =>
      destruct (userRepository_Create_present w2 u d Hf2) as [u' ->]
  end.
  - unfold email_present. cbn [gorm.users Email]. rewrite fmap_app.
    apply elem_of_app. right. rewrite <- Hmail. apply list_elem_of_singleton.
    reflexivity.
  - reflexivity.
Qed.

(** C6.  After any sequence of calls on the engine, starting from the
    empty database, no two stored accounts share an email; and a
    Register whose email is already present then fails and stores
    nothing, with the sentinel ErrDuplicateEmail (a constant, which
    carries nothing of the existing account, rendered by the HTTP handler
    as the fixed 409 response) as soon as the directory is reached and
    answers, that is when the password was hashed and the store is not at
    fault. *)
Theorem register_duplicate_email (secret : string) (calls : list call) :
  let svc := NewUserService NewUserRepository secret in
  let db := run svc calls gorm.empty in
  unique_emails db ∧
  ∀ (w : World) (req : RegisterRequest.t),
    email_present (RegisterRequest.Email req) db →
    ∃ err,
      Register svc w req db = (Err err, db) ∧
      (errors.is_Ok (HashPassword w (RegisterRequest.Password req)) = true →
       db_fault w = None →
       err = ErrDuplicateEmail ∧
       ∀ c, gin.ShouldBindJSON c = Ok req →
            handler.HTTPHandler_Register (handler.NewHTTPHandler svc) w c db
            = (handler.errorJSON http.StatusConflict "Email already exists",
               db)).
Proof.
  intros svc db. split.
  - apply run_unique_emails. apply NoDup_nil_2.
  - intros w req Hpresent.
    assert (∃ err, Register svc w req db = (Err err, db) ∧
              (errors.is_Ok (HashPassword w (RegisterRequest.Password req))
               = true → db_fault w = None → err = ErrDuplicateEmail))
      as (err & Hreg & Hkind).
    { cbn [svc Register NewUserService]. unfold userService_Register.
      destruct (HashPassword _ _) as [hashed|err]; [| by eexists].
      cbn [repo Create NewUserRepository errors.is_Ok].
      destruct (db_fault w) as [msg|] eqn:Hfault.
      - unfold userRepository_Create, gorm.Create. rewrite Hfault.
        eexists. split; [reflexivity |]. done.
      - match goal with
        | |- context [userRepository_Create w ?u db] =>
            destruct (userRepository_Create_present w u db Hfault Hpresent)
              as [u' ->]
        end.
        exists ErrDuplicateEmail. done. }
    exists err. split; [exact Hreg |].
    intros Hhash Hfault. specialize (Hkind Hhash Hfault). subst err.
    split; [done |]. intros c Hbind.
    unfold handler.HTTPHandler_Register. rewrite Hbind.
    cbn [handler.http_service handler.NewHTTPHandler]. rewrite Hreg.
    reflexivity.
Qed.

End directory_facts.

(** ** The synchronous transport over the engine, the codecs and the
       gorm-backed directory *)

Section facade_facts.
Import codec repository service handler.
Context {P : Primitives}.

Lemma First_error (w : World) (cond : User → bool) (db : gorm.DB)
    (err : error) :
  gorm.First w cond db = Err err →
  err = gorm_ErrRecordNotFound ∨ ∃ msg, err = gorm_Error msg.
Proof.
  unfold gorm.First. destruct (db_fault w) as [msg|].
  - intros [= <-]. eauto.
  - destruct (find cond (gorm.users db)); [done |]. intros [= <-]. auto.
Qed.

(** The errors the three operations surface. *)
Lemma Register_error (secret : string) (w : World)
    (req : RegisterRequest.t) (db db' : gorm.DB) (err : error) :
  Register (NewUserService NewUserRepository secret) w req db
  = (Err err, db') →
  err = ErrDuplicateEmail ∨
  err = Errorf "failed to hash password" HashingFailure ∨
  ∃ msg, err = Errorf "failed to create user" (gorm_Error msg).
Proof.
  cbn [Register NewUserService]. unfold userService_Register.
  cbn [util.HashPassword model]. unfold HashPassword.
  destruct (rand_Read w) as [salt|]; [| intros [= <- <-]; auto].
  destruct (kdf _ _ _) as [digest|]; [| intros [= <- <-]; auto].
  cbn [repo Create NewUserRepository].
  unfold userRepository_Create, gorm.Create.
  destruct (db_fault w) as [msg|].
  - intros [= <- <-]. eauto.
  - destruct (existsb _ _); [| done]. intros [= <- <-]. auto.
Qed.

Lemma Login_error (secret : string) (w : World) (req : LoginRequest.t)
    (db db' : gorm.DB) (err : error) :
  Login (NewUserService NewUserRepository secret) w req db
  = (Err err, db') →
  err = ErrInvalidCredentials ∨
  err = Errorf "failed to generate token" IssuanceFailure ∨
  ∃ msg, err = Errorf "failed to get user" (gorm_Error msg).
Proof.
  cbn [Login NewUserService]. unfold userService_Login.
  cbn [repo GetByEmail NewUserRepository].
  unfold userRepository_GetByEmail.
  destruct (gorm.First _ _ _) as [user|e] eqn:Hfirst.
  - destruct (negb _); [intros [= <- <-]; auto |].
    cbn [util.GenerateJWT model]. unfold GenerateJWT.
    destruct (sign _ _); [done |]. intros [= <- <-]. auto.
  - apply First_error in Hfirst as [-> | [msg ->]];
      intros [= <- <-]; eauto.
Qed.

Lemma GetUserByID_error (secret : string) (w : World) (id : string)
    (db db' : gorm.DB) (err : error) :
  GetUserByID (NewUserService NewUserRepository secret) w id db
  = (Err err, db') →
  err = ErrUserNotFound ∨ ∃ msg, err = gorm_Error msg.
Proof.
  cbn [GetUserByID NewUserService]. unfold userService_GetUserByID.
  cbn [repo GetByID NewUserRepository].
  unfold userRepository_GetByID.
  destruct (gorm.First _ _ _) as [user|e] eqn:Hfirst; [done |].
  apply First_error in Hfirst as [-> | [msg ->]];
    intros [= <- <-]; eauto.
Qed.

(** C7.  On the synchronous transport, over the engine with the codecs
    and the gorm-backed directory: a request that does not bind is
    answered 400, and every error the engine surfaces is answered with
    the status of the table of spec 4.4: 409 for DuplicateEmail, 401 for
    InvalidCredentials, 404 for NotFound, 500 for every other error. *)
Theorem facade_error_translation (secret : string) (w : World)
    (db : gorm.DB) :
  let svc := NewUserService NewUserRepository secret in
  let h := NewHTTPHandler svc in
  (∀ c,
      (∀ e, gin.ShouldBindJSON c = Err e →
            gin.Status (fst (HTTPHandler_Register h w c db))
            = facade.status_of_malformed_input) ∧
      (∀ req err db',
          gin.ShouldBindJSON c = Ok req →
          Register svc w req db = (Err err, db') →
          gin.Status (fst (HTTPHandler_Register h w c db))
          = facade.status_of_error err)) ∧
  (∀ c,
      (∀ e, gin.ShouldBindJSON c = Err e →
            gin.Status (fst (HTTPHandler_Login h w c db))
            = facade.status_of_malformed_input) ∧
      (∀ req err db',
          gin.ShouldBindJSON c = Ok req →
          Login svc w req db = (Err err, db') →
          gin.Status (fst (HTTPHandler_Login h w c db))
          = facade.status_of_error err)) ∧
  (∀ c err db',
      GetUserByID svc w (gin.Param c "id") db = (Err err, db') →
      gin.Status (fst (HTTPHandler_GetUser h w c db))
      = facade.status_of_error err).
Proof.
  intros svc h. split; [| split].
  - intros c. split.
    + intros e Hbind. unfold HTTPHandler_Register. by rewrite Hbind.
    + intros req err db' Hbind Hreg.
      unfold HTTPHandler_Register. rewrite Hbind.
      cbn [h http_service NewHTTPHandler]. rewrite Hreg.
      apply Register_error in Hreg as [-> | [-> | [msg ->]]]; reflexivity.
  - intros c. split.
    + intros e Hbind. unfold HTTPHandler_Login. by rewrite Hbind.
    + intros req err db' Hbind Hlogin.
      unfold HTTPHandler_Login. rewrite Hbind.
      cbn [h http_service NewHTTPHandler]. rewrite Hlogin.
      apply Login_error in Hlogin as [-> | [-> | [msg ->]]]; reflexivity.
  - intros c err db' Hget.
    unfold HTTPHandler_GetUser.
    cbn [h http_service NewHTTPHandler]. rewrite Hget.
    apply GetUserByID_error in Hget as [-> | [msg ->]]; reflexivity.
Qed.

End facade_facts.

(** ** Configuration *)

Section config_facts.
Import config.

Lemma getEnv_empty_default (env : environ) (key : string) :
  getEnv env key "" = os_Getenv env key.
Proof.
  unfold getEnv. cbv zeta. case_bool_decide as H; [done |].
  by rewrite H.
Qed.

Lemma os_Getenv_empty (env : environ) (key : string) :
  os_Getenv env key = "" ↔ env !! key = None ∨ env !! key = Some "".
Proof.
  unfold os_Getenv. destruct (env !! key) as [v|]; simpl.
  - split; [intros ->; auto | intros [[=] | [= ->]]; done].
  - split; auto.
Qed.

(** C10.  Load fails exactly when DATABASE_URL resolves to the empty
    string, that is when the variable is unset or empty once the .env
    file has been applied; and when JWT_SECRET is unset or empty, the
    secret resolves to the fixed default and Load does not fail on its
    account: it returns a configuration with that default as soon as
    DATABASE_URL is not empty. *)
Theorem load_fails_iff_database_url_empty (dotenv : option environ)
    (env0 : environ) :
  let env := godotenv_Load dotenv env0 in
  (errors.is_Ok (Load dotenv env0) = false ↔
   getEnv env "DATABASE_URL" "" = "") ∧
  (getEnv env "DATABASE_URL" "" = "" ↔
   env !! "DATABASE_URL" = None ∨ env !! "DATABASE_URL" = Some "") ∧
  (env !! "JWT_SECRET" = None ∨ env !! "JWT_SECRET" = Some "" →
   getEnv env "JWT_SECRET" "your-secret-key-change-in-production"
   = "your-secret-key-change-in-production" ∧
   (getEnv env "DATABASE_URL" "" ≠ "" →
    ∃ cfg, Load dotenv env0 = Ok cfg ∧
           JWTSecret cfg = "your-secret-key-change-in-production")).
Proof.
  intros env. split; [| split].
  - unfold Load. fold env. cbn [DatabaseURL].
    case_bool_decide as Hdb; cbn [errors.is_Ok]; split; done.
  - rewrite getEnv_empty_default. apply os_Getenv_empty.
  - intros Hjwt%os_Getenv_empty.
    assert (getEnv env "JWT_SECRET" "your-secret-key-change-in-production"
            = "your-secret-key-change-in-production") as Hdefault.
    { unfold getEnv. cbv zeta. rewrite Hjwt.
      rewrite bool_decide_eq_false_2; [done |]. by intros []. }
    split; [exact Hdefault |].
    intros Hdb. unfold Load. fold env. cbn [DatabaseURL].
    rewrite bool_decide_eq_false_2 by done.
    eexists. split; [reflexivity |]. exact Hdefault.
Qed.

End config_facts.

(** ** The claims on the scenario *)



Lemma register_duplicate_email_witness :
  let db := directory.run scenario.svc
              [directory.CallRegister scenario.w0 scenario.ann] gorm.empty in
  service.Register scenario.svc scenario.w1 scenario.ann db
  = (Err ErrDuplicateEmail, db).
Proof.
  intros db.
  destruct (proj2 (register_duplicate_email (U:=scenario.util) scenario.secret
                     [directory.CallRegister scenario.w0 scenario.ann])
              scenario.w1 scenario.ann) as (err & Hreg & Hkind).
  - unfold directory.email_present.
    apply (bool_decide_unpack _). vm_compute. exact I.
  - rewrite <- (proj1 (Hkind ltac:(vm_compute; reflexivity) eq_refl)).
    exact Hreg.
Defined.

Lemma facade_error_translation_witness :
  gin.Status
    (fst (handler.HTTPHandler_Register
            (handler.NewHTTPHandler scenario.svc)
            scenario.w1 scenario.ann_request scenario.db1))
  = http.StatusConflict ∧
  gin.Status
    (fst (handler.HTTPHandler_Login
            (handler.NewHTTPHandler cases.unsigned)
            scenario.w1 cases.ann_login_request scenario.db1))
  = http.StatusInternalServerError.
Proof.
  split.
  - exact (proj2 (proj1 (facade_error_translation (P:=codec.sample)
                           scenario.secret scenario.w1 scenario.db1)
                    scenario.ann_request)
             scenario.ann ErrDuplicateEmail scenario.db1 eq_refl
             ltac:(vm_compute; reflexivity)).
  - exact (proj2 (proj1 (proj2 (facade_error_translation (P:=codec.sample)
                                  "" scenario.w1 scenario.db1))
                    cases.ann_login_request)
             scenario.ann_login
             (Errorf "failed to generate token" IssuanceFailure)
             scenario.db1 eq_refl ltac:(vm_compute; reflexivity)).
Defined.

Lemma load_fails_iff_database_url_empty_witness :
  ∃ cfg,
    config.Load None scenario.environment = Ok cfg ∧
    config.JWTSecret cfg = "your-secret-key-change-in-production".
Proof.
  apply (proj2 (proj2 (proj2 (load_fails_iff_database_url_empty
                                None scenario.environment))
                  ltac:(left; vm_compute; reflexivity))).
  vm_compute. discriminate.
Defined.

(* ===================================================================== *)
(** * Further properties of the code *)
(* ===================================================================== *)

(** ** The repository over gorm *)

Section repository_more.
Import repository directory store.

Lemma find_app_first {A : Type} (f : A → bool) (l k : list A) :
  find f (l ++ k)
  = match find f l with Some x => Some x | None => find f k end.
Proof.
  induction l as [|a l IH]; [done |]. cbn [app find].
  destruct (f a); [done | exact IH].
Qed.

Lemma find_key_None {K : Type} `{EqDecision K} (key : User → K) (k : K)
    (rows : list User) :
  find (λ r, bool_decide (key r = k)) rows = None ↔ k ∉ (key <$> rows).
Proof.
  induction rows as [|a rows IH]; cbn [find fmap list_fmap].
  - split; [intros _; apply not_elem_of_nil | done].
  - case_bool_decide as Ha.
    + split; [done |]. intros Hn. exfalso. apply Hn. subst k. left.
    + rewrite IH. rewrite not_elem_of_cons.
      split; [intros ?; split; [congruence | done] | by intros [_ ?]].
Qed.

Lemma find_key_Some {K : Type} `{EqDecision K} (key : User → K) (k : K)
    (rows : list User) (r : User) :
  find (λ r, bool_decide (key r = k)) rows = Some r →
  key r = k ∧ r ∈ rows.
Proof.
  intros Hf. apply find_some in Hf as [Hin Hk].
  split; [by apply bool_decide_eq_true in Hk | by apply list_elem_of_In].
Qed.

(** Under a unique key, looking a row up by its own key finds that row. *)
Lemma find_key_unique {K : Type} `{EqDecision K} (key : User → K)
    (rows : list User) (r : User) :
  NoDup (key <$> rows) → r ∈ rows →
  find (λ x, bool_decide (key x = key r)) rows = Some r.
Proof.
  induction rows as [|a rows IH]; intros Hnd Hin; [by inversion Hin |].
  cbn [fmap list_fmap] in Hnd. apply NoDup_cons in Hnd as [Ha Hnd].
  cbn [find]. apply elem_of_cons in Hin as [-> | Hin].
  - by rewrite bool_decide_eq_true_2.
  - rewrite bool_decide_eq_false_2; [by apply IH |].
    intros Heq. apply Ha. rewrite Heq. apply list_elem_of_fmap. eauto.
Qed.

Lemma inserted_fields (w : World) (u : User) :
  ID (inserted w u) = (if bool_decide (ID u = "") then uuid_New w else ID u) ∧
  Email (inserted w u) = Email u ∧ Name (inserted w u) = Name u ∧
  Password (inserted w u) = Password u.
Proof.
  unfold inserted, gorm.autoTime, BeforeCreate.
  case_bool_decide; done.
Qed.

Lemma collides_false (u : User) (rows : list User) :
  existsb (gorm.collides u) rows = false ↔
  (ID u ∉ (ID <$> rows)) ∧ (Email u ∉ (Email <$> rows)).
Proof.
  induction rows as [|a rows IH]; cbn [existsb fmap list_fmap].
  - split; [intros _; split; apply not_elem_of_nil | done].
  - rewrite orb_false_iff, IH, !not_elem_of_cons. unfold gorm.collides.
    rewrite orb_false_iff, !bool_decide_eq_false.
    intuition (auto; congruence).
Qed.

(** The three outcomes of the repository's Create. *)
Lemma userRepository_Create_cases (w : World) (u : User) (db : gorm.DB) :
  userRepository_Create w u db =
    match db_fault w with
    | Some msg => (Some (gorm_Error msg), inserted w u, db)
    | None =>
        if existsb (gorm.collides (inserted w u)) (gorm.users db)
        then (Some ErrDuplicateEmail, inserted w u, db)
        else (None, inserted w u,
              {| gorm.users := gorm.users db ++ [inserted w u] |})
    end.
Proof.
  unfold userRepository_Create, gorm.Create. fold (inserted w u).
  destruct (db_fault w); [done |].
  destruct (existsb _ _); done.
Qed.

(** X1.  Insert then look up: a row that Create has stored is returned,
    whole, by GetByID under its ID and by GetByEmail under its email, on
    every database, as long as the store is up at the lookup. *)
Theorem Create_then_lookup (w w' : World) (u u' : User) (db db' : gorm.DB) :
  userRepository_Create w u db = (None, u', db') →
  db_fault w' = None →
  userRepository_GetByID w' (ID u') db' = (Ok u', db') ∧
  userRepository_GetByEmail w' (Email u') db' = (Ok u', db').
Proof.
  rewrite userRepository_Create_cases. intros Hc Hup.
  destruct (db_fault w); [done |].
  destruct (existsb _ _) eqn:Hex; [done |].
  injection Hc as <- <-.
  apply collides_false in Hex as [Hid Hmail].
  unfold userRepository_GetByID, userRepository_GetByEmail, gorm.First.
  rewrite Hup. cbn [gorm.users]. rewrite !find_app_first.
  rewrite (proj2 (find_key_None ID _ _) Hid).
  rewrite (proj2 (find_key_None Email _ _) Hmail).
  cbn [find]. rewrite !bool_decide_eq_true_2 by done. done.
Qed.

(** X2.  When Create reports what.  With the store up it reports
    ErrDuplicateEmail exactly when some row has the email or has the ID
    the struct is inserted under (its own, or the fresh uuid when it has
    none): a clash on the primary key alone is reported as a duplicate
    email too.  It stores the row exactly when neither clashes, and with
    the store down it returns the driver's error as it is. *)
Theorem Create_reports_duplicate_iff (w : World) (u : User) (db : gorm.DB) :
  let id := if bool_decide (ID u = "") then uuid_New w else ID u in
  (fst (fst (userRepository_Create w u db)) = Some ErrDuplicateEmail ↔
   db_fault w = None ∧ (has_id id db ∨ email_present (Email u) db)) ∧
  (fst (fst (userRepository_Create w u db)) = None ↔
   db_fault w = None ∧ ¬ has_id id db ∧ ¬ email_present (Email u) db) ∧
  (∀ msg, db_fault w = Some msg →
          userRepository_Create w u db
          = (Some (gorm_Error msg), inserted w u, db)).
Proof.
  intros id. rewrite userRepository_Create_cases.
  destruct (inserted_fields w u) as (Hid & Hmail & _). fold id in Hid.
  unfold has_id, email_present.
  destruct (db_fault w) as [msg|].
  - cbn [fst]. split; [| split].
    + split; [done | by intros [[=] _]].
    + split; [done | by intros [[=] _]].
    + by intros ? [= <-].
  - destruct (existsb _ _) eqn:Hex; cbn [fst].
    + assert (id ∈ (ID <$> gorm.users db) ∨
              Email u ∈ (Email <$> gorm.users db)) as Hclash.
      { destruct (decide (id ∈ (ID <$> gorm.users db))) as [|Hi];
          [by left |].
        destruct (decide (Email u ∈ (Email <$> gorm.users db))) as [|He];
          [by right |].
        exfalso.
        assert (existsb (gorm.collides (inserted w u)) (gorm.users db)
                = false) as Hf
          by (apply collides_false; rewrite Hid, Hmail; done).
        congruence. }
      split; [| split].
      * split; [intros _; split; [done | exact Hclash] | done].
      * split; [done |]. intros (_ & Hi & He). destruct Hclash; done.
      * done.
    + apply collides_false in Hex as [Hi He]. rewrite Hid in Hi.
      rewrite Hmail in He. split; [| split].
      * split; [done |]. intros (_ & [? | ?]); done.
      * split; [done | done].
      * done.
Qed.

(** X3.  A missing key.  GetByID answers ErrUserNotFound exactly when the
    store is up and no row has the ID; a row it returns has that ID and is
    a row of the table; with the store down it returns the driver's
    error; and it never changes the database.  GetByEmail does the same
    for the email. *)
Theorem lookup_missing_key (w : World) (key : string) (db : gorm.DB) :
  (userRepository_GetByID w key db = (Err ErrUserNotFound, db) ↔
   db_fault w = None ∧ ¬ has_id key db) ∧
  (∀ user db', userRepository_GetByID w key db = (Ok user, db') →
               db' = db ∧ ID user = key ∧ user ∈ gorm.users db) ∧
  (userRepository_GetByEmail w key db = (Err ErrUserNotFound, db) ↔
   db_fault w = None ∧ ¬ email_present key db) ∧
  (∀ user db', userRepository_GetByEmail w key db = (Ok user, db') →
               db' = db ∧ Email user = key ∧ user ∈ gorm.users db) ∧
  (∀ msg, db_fault w = Some msg →
          userRepository_GetByID w key db = (Err (gorm_Error msg), db) ∧
          userRepository_GetByEmail w key db = (Err (gorm_Error msg), db)).
Proof.
  unfold userRepository_GetByID, userRepository_GetByEmail, gorm.First,
    has_id, email_present.
  destruct (db_fault w) as [msg|].
  - cbn [errors.Is]. split; [| split; [| split; [| split]]].
    + split; [done | by intros [[=] _]].
    + by intros ? ? [=].
    + split; [done | by intros [[=] _]].
    + by intros ? ? [=].
    + by intros ? [= <-].
  - pose proof (find_key_None ID key (gorm.users db)) as HnI.
    pose proof (find_key_None Email key (gorm.users db)) as HnE.
    pose proof (find_key_Some ID key (gorm.users db)) as HsI.
    pose proof (find_key_Some Email key (gorm.users db)) as HsE.
    split; [| split; [| split; [| split]]].
    + destruct (find (λ r, bool_decide (ID r = key)) _) as [r|].
      * split; [done |]. intros [_ Hn]. by apply HnI in Hn.
      * split; [intros _; split; [done | by apply HnI] | done].
    + destruct (find (λ r, bool_decide (ID r = key)) _) as [r|];
        [| done].
      intros user db' [= <- <-]. destruct (HsI r eq_refl). done.
    + destruct (find (λ r, bool_decide (Email r = key)) _) as [r|].
      * split; [done |]. intros [_ Hn]. by apply HnE in Hn.
      * split; [intros _; split; [done | by apply HnE] | done].
    + destruct (find (λ r, bool_decide (Email r = key)) _) as [r|];
        [| done].
      intros user db' [= <- <-]. destruct (HsE r eq_refl). done.
    + done.
Qed.

End repository_more.

(** ** The engine over the gorm-backed directory, for every implementation
       of package util *)

Section engine_more.
Import repository service directory store.
Context {U : Util}.

(** The four outcomes of Register, in the order the code decides them. *)
Lemma Register_cases (secret : string) (w : World) (req : RegisterRequest.t)
    (db : gorm.DB) :
  Register (NewUserService NewUserRepository secret) w req db =
    match HashPassword w (RegisterRequest.Password req) with
    | Err err => (Err (Errorf "failed to hash password" err), db)
    | Ok hashed =>
        let row := {| ID := uuid_New w;
                      Email := RegisterRequest.Email req;
                      Name := RegisterRequest.Name req;
                      Password := hashed;
                      CreatedAt := time_Now w; UpdatedAt := time_Now w |} in
        match db_fault w with
        | Some msg =>
            (Err (Errorf "failed to create user" (gorm_Error msg)), db)
        | None =>
            if existsb (gorm.collides row) (gorm.users db)
            then (Err ErrDuplicateEmail, db)
            else (Ok (clearPassword row),
                  {| gorm.users := gorm.users db ++ [row] |})
        end
    end.
Proof.
  cbn [Register NewUserService]. unfold userService_Register.
  destruct (HashPassword _ _) as [hashed|err]; [| done].
  cbn [repo Create NewUserRepository].
  rewrite userRepository_Create_cases.
  destruct (db_fault w); [done |].
  change (inserted w _) with
    {| ID := uuid_New w; Email := RegisterRequest.Email req;
       Name := RegisterRequest.Name req; Password := hashed;
       CreatedAt := time_Now w; UpdatedAt := time_Now w |}.
  destruct (existsb _ _); done.
Qed.

Lemma Login_db (secret : string) (w : World) (req : LoginRequest.t)
    (db : gorm.DB) :
  snd (Login (NewUserService NewUserRepository secret) w req db) = db.
Proof.
  cbn [Login NewUserService]. unfold userService_Login.
  cbn [repo GetByEmail NewUserRepository].
  pose proof (GetByEmail_db w (LoginRequest.Email req) db) as Hdb.
  destruct (userRepository_GetByEmail _ _ _) as [[user|err] db'];
    cbn [snd] in Hdb; subst db'.
  - destruct (negb _); [done |]. destruct (GenerateJWT _ _ _ _); done.
  - destruct (errors.Is _ _); done.
Qed.

Lemma GetUserByID_db (secret : string) (w : World) (id : string)
    (db : gorm.DB) :
  snd (GetUserByID (NewUserService NewUserRepository secret) w id db) = db.
Proof.
  cbn [GetUserByID NewUserService]. unfold userService_GetUserByID.
  cbn [repo GetByID NewUserRepository].
  pose proof (GetByID_db w id db) as Hdb.
  destruct (userRepository_GetByID _ _ _) as [[user|err] db'];
    cbn [snd] in Hdb; subst db'; done.
Qed.

Lemma ValidateToken_db (secret : string) (w : World) (token : string)
    (db : gorm.DB) :
  snd (ValidateToken (NewUserService NewUserRepository secret) w token db)
  = db.
Proof.
  cbn [ValidateToken NewUserService]. unfold userService_ValidateToken.
  destruct (ValidateJWT _ _ _); done.
Qed.

(** One call either leaves the table as it is or appends one row. *)
Lemma step_appends (secret : string) (c : call) (db : gorm.DB) :
  let db' := step (NewUserService NewUserRepository secret) c db in
  db' = db ∨
  ∃ row, db' = {| gorm.users := gorm.users db ++ [row] |} ∧
         (ID row ∉ (ID <$> gorm.users db)) ∧
         (Email row ∉ (Email <$> gorm.users db)).
Proof.
  destruct c as [w req|w req|w id|w token]; cbn [step].
  - rewrite Register_cases.
    destruct (HashPassword _ _) as [hashed|err]; [| by left]. cbv zeta.
    destruct (db_fault w); [by left |].
    destruct (existsb _ _) eqn:Hex; [by left |].
    right. eexists. split; [reflexivity |]. by apply collides_false.
  - left. apply Login_db.
  - left. apply GetUserByID_db.
  - left. apply ValidateToken_db.
Qed.

Lemma run_cons (svc : UserService gorm.DB) (c : call) (calls : list call)
    (db : gorm.DB) :
  run svc (c :: calls) db = run svc calls (step svc c db).
Proof. reflexivity. Qed.

(** X4.  What a successful Register does.  Register succeeds exactly when
    the password is hashed, the store is up, and no row has the email or
    the fresh uuid; it then appends one row that holds the hash (never the
    request's password field itself), the uuid as ID and the clock as both
    timestamps, and returns that row with the Password field emptied. *)
Theorem Register_success_iff (secret : string) (w : World)
    (req : RegisterRequest.t) (db db' : gorm.DB) (user : User) :
  Register (NewUserService NewUserRepository secret) w req db
  = (Ok user, db') ↔
  ∃ hashed,
    HashPassword w (RegisterRequest.Password req) = Ok hashed ∧
    db_fault w = None ∧
    ¬ has_id (uuid_New w) db ∧
    ¬ email_present (RegisterRequest.Email req) db ∧
    user = {| ID := uuid_New w; Email := RegisterRequest.Email req;
              Name := RegisterRequest.Name req; Password := "";
              CreatedAt := time_Now w; UpdatedAt := time_Now w |} ∧
    db' = {| gorm.users :=
               gorm.users db ++
               [{| ID := uuid_New w; Email := RegisterRequest.Email req;
                   Name := RegisterRequest.Name req; Password := hashed;
                   CreatedAt := time_Now w; UpdatedAt := time_Now w |}] |}.
Proof.
  rewrite Register_cases. unfold has_id, email_present.
  destruct (HashPassword _ _) as [hashed|err]; cbv zeta.
  - destruct (db_fault w) as [msg|].
    { split; [done | by intros (? & _ & [=] & _)]. }
    destruct (existsb _ _) eqn:Hex.
    + split; [done |]. intros (h & [= <-] & _ & Hi & He & _).
      assert (existsb
                (gorm.collides
                   {| ID := uuid_New w; Email := RegisterRequest.Email req;
                      Name := RegisterRequest.Name req; Password := hashed;
                      CreatedAt := time_Now w; UpdatedAt := time_Now w |})
                (gorm.users db) = false) as Hf
        by (by apply collides_false).
      congruence.
    + apply collides_false in Hex as [Hi He]. split.
      * intros [= <- <-]. exists hashed. done.
      * intros (h & [= <-] & _ & _ & _ & -> & ->). done.
  - split; [done | by intros (? & [=] & _)].
Qed.

(** X5.  When Register answers ErrDuplicateEmail: exactly when the
    password was hashed, the store is up, and some row has the email or
    has the uuid just drawn; so a uuid that repeats is reported as a
    duplicate email although the email is new.  Nothing is stored. *)
Theorem Register_duplicate_iff (secret : string) (w : World)
    (req : RegisterRequest.t) (db db' : gorm.DB) :
  Register (NewUserService NewUserRepository secret) w req db
  = (Err ErrDuplicateEmail, db') ↔
  db' = db ∧
  errors.is_Ok (HashPassword w (RegisterRequest.Password req)) = true ∧
  db_fault w = None ∧
  (has_id (uuid_New w) db ∨ email_present (RegisterRequest.Email req) db).
Proof.
  rewrite Register_cases. unfold has_id, email_present.
  destruct (HashPassword _ _) as [hashed|err]; cbv zeta; cbn [errors.is_Ok].
  - destruct (db_fault w) as [msg|].
    { split; [done | by intros (_ & _ & [=] & _)]. }
    destruct (existsb _ _) eqn:Hex.
    + split.
      * intros [= <-]. repeat split.
        destruct (decide (uuid_New w ∈ (ID <$> gorm.users db)));
          [by left |].
        destruct (decide (RegisterRequest.Email req
                          ∈ (Email <$> gorm.users db))); [by right |].
        assert (existsb
                  (gorm.collides
                     {| ID := uuid_New w; Email := RegisterRequest.Email req;
                        Name := RegisterRequest.Name req; Password := hashed;
                        CreatedAt := time_Now w; UpdatedAt := time_Now w |})
                  (gorm.users db) = false) as Hf
          by (by apply collides_false).
        congruence.
      * intros (-> & _). done.
    + apply collides_false in Hex as [Hi He]. cbn [ID Email] in Hi, He.
      split; [done |]. intros (_ & _ & _ & [? | ?]); done.
  - split; [done | by intros (_ & [=] & _)].
Qed.

(** X6.  Only a successful Register writes: whenever a call leaves the
    database different from what it was, the call is a Register and it
    succeeded.  Login, GetUserByID, ValidateToken and every failed
    Register leave the database as it is. *)
Theorem only_successful_register_writes (secret : string) (c : call)
    (db : gorm.DB) :
  let svc := NewUserService NewUserRepository secret in
  step svc c db ≠ db →
  ∃ w req user, c = CallRegister w req ∧
                Register svc w req db = (Ok user, step svc c db).
Proof.
  intros svc. destruct c as [w req|w req|w id|w token]; cbn [step].
  - intros Hch. exists w, req.
    destruct (Register svc w req db) as [[user|err] db'] eqn:Hreg;
      cbn [snd] in *; [by exists user |].
    exfalso. apply Hch. unfold svc in Hreg. rewrite Register_cases in Hreg.
    destruct (HashPassword _ _); [| by injection Hreg]. cbv zeta in Hreg.
    destruct (db_fault w); [by injection Hreg |].
    destruct (existsb _ _); [by injection Hreg | done].
  - intros Hch. exfalso. apply Hch, Login_db.
  - intros Hch. exfalso. apply Hch, GetUserByID_db.
  - intros Hch. exfalso. apply Hch, ValidateToken_db.
Qed.

Lemma run_prefix (secret : string) (calls : list call) (db : gorm.DB) :
  gorm.users db
    `prefix_of` gorm.users
                  (run (NewUserService NewUserRepository secret) calls db).
Proof.
  revert db. induction calls as [|c calls IH]; intros db; [done |].
  rewrite run_cons. etransitivity; [| apply IH].
  destruct (step_appends secret c db) as [-> | (row & -> & _)]; [done |].
  cbn [gorm.users]. by apply prefix_app_r.
Qed.

Lemma run_unique_ids (secret : string) (calls : list call) (db : gorm.DB) :
  unique_ids db →
  unique_ids (run (NewUserService NewUserRepository secret) calls db).
Proof.
  revert db. induction calls as [|c calls IH]; intros db Huniq; [done |].
  rewrite run_cons. apply IH.
  destruct (step_appends secret c db) as [-> | (row & -> & Hid & _)];
    [done |].
  unfold unique_ids in *. cbn [gorm.users]. rewrite fmap_app.
  apply NoDup_app. split; [done |]. split; [| apply NoDup_singleton].
  intros x Hx [->|[]%elem_of_nil]%elem_of_cons. done.
Qed.

Lemma find_prefix {A : Type} (f : A → bool) (l l' : list A) (r : A) :
  l `prefix_of` l' → find f l = Some r → find f l' = Some r.
Proof. intros [k ->] Hf. by rewrite find_app_first, Hf. Qed.

(** The two lookups of the engine once the row is known. *)
Lemma GetUserByID_found (secret : string) (w : World) (id : string)
    (db : gorm.DB) (row : User) :
  db_fault w = None →
  find (λ r, bool_decide (ID r = id)) (gorm.users db) = Some row →
  GetUserByID (NewUserService NewUserRepository secret) w id db
  = (Ok (clearPassword row), db).
Proof.
  intros Hup Hf. cbn [GetUserByID NewUserService].
  unfold userService_GetUserByID. cbn [repo GetByID NewUserRepository].
  unfold userRepository_GetByID, gorm.First. by rewrite Hup, Hf.
Qed.

Lemma Login_found (secret : string) (w : World) (req : LoginRequest.t)
    (db : gorm.DB) (row : User) :
  db_fault w = None →
  find (λ r, bool_decide (Email r = LoginRequest.Email req)) (gorm.users db)
  = Some row →
  Login (NewUserService NewUserRepository secret) w req db =
    if CheckPassword (LoginRequest.Password req) (Password row)
    then match GenerateJWT w (ID row) (Email row) secret with
         | Ok token => (Ok {| LoginResponse.Token := token;
                              LoginResponse.User := clearPassword row |}, db)
         | Err err => (Err (Errorf "failed to generate token" err), db)
         end
    else (Err ErrInvalidCredentials, db).
Proof.
  intros Hup Hf. cbn [Login NewUserService]. unfold userService_Login.
  cbn [repo GetByEmail NewUserRepository jwtSecret].
  unfold userRepository_GetByEmail, gorm.First. rewrite Hup, Hf.
  destruct (CheckPassword _ _); cbn [negb]; [| done].
  destruct (GenerateJWT _ _ _ _); done.
Qed.

(** What a successful Register leaves behind: the row, last in the table,
    found by its ID and by its email. *)
Lemma Register_stores (secret : string) (w : World)
    (req : RegisterRequest.t) (db db1 : gorm.DB) (user : User) :
  Register (NewUserService NewUserRepository secret) w req db
  = (Ok user, db1) →
  ∃ row,
    user = clearPassword row ∧
    Email row = RegisterRequest.Email req ∧
    HashPassword w (RegisterRequest.Password req) = Ok (Password row) ∧
    find (λ r, bool_decide (ID r = ID user)) (gorm.users db1) = Some row ∧
    find (λ r, bool_decide (Email r = RegisterRequest.Email req))
      (gorm.users db1) = Some row.
Proof.
  rewrite Register_cases.
  destruct (HashPassword _ _) as [hashed|err]; [| done]. cbv zeta.
  destruct (db_fault w); [done |].
  destruct (existsb _ _) eqn:Hex; [done |].
  intros [= <- <-]. apply collides_false in Hex as [Hi He].
  eexists. split; [reflexivity |]. split; [reflexivity |].
  split; [reflexivity |].
  cbn [gorm.users ID Email clearPassword] in *. rewrite !find_app_first.
  rewrite (proj2 (find_key_None ID _ _) Hi).
  rewrite (proj2 (find_key_None Email _ _) He).
  cbn [find ID Email]. rewrite !bool_decide_eq_true_2 by done. done.
Qed.

(** X7.  No call removes or alters a stored row: after any sequence of
    calls the table still begins with the rows it had, in their order and
    with their contents (stored hashes included), so every account that
    was stored still is. *)
Theorem rows_never_removed (secret : string) (calls : list call)
    (db : gorm.DB) :
  let db' := run (NewUserService NewUserRepository secret) calls db in
  gorm.users db `prefix_of` gorm.users db' ∧
  ∀ row, row ∈ gorm.users db → row ∈ gorm.users db'.
Proof.
  intros db'. pose proof (run_prefix secret calls db) as [k Hk].
  fold db' in Hk. split; [by exists k |].
  intros row Hin. rewrite Hk. apply elem_of_app. by left.
Qed.

(** X8.  After any sequence of calls from the empty database no two
    stored accounts share an ID, and every stored account is the one its
    ID and its email look up: GetUserByID under its ID returns it with the
    Password field emptied, and GetByEmail under its email returns it. *)
Theorem ids_stay_unique (secret : string) (calls : list call) :
  let svc := NewUserService NewUserRepository secret in
  let db := run svc calls gorm.empty in
  unique_ids db ∧
  ∀ w row, db_fault w = None → row ∈ gorm.users db →
           GetUserByID svc w (ID row) db = (Ok (clearPassword row), db) ∧
           userRepository_GetByEmail w (Email row) db = (Ok row, db).
Proof.
  intros svc db.
  assert (unique_ids db) as Hids
    by (apply run_unique_ids, NoDup_nil_2).
  assert (unique_emails db) as Hmails
    by (apply run_unique_emails, NoDup_nil_2).
  split; [exact Hids |]. intros w row Hup Hin. split.
  - apply GetUserByID_found; [done |]. by apply (find_key_unique ID).
  - unfold userRepository_GetByEmail, gorm.First. rewrite Hup.
    by rewrite (find_key_unique Email _ _ Hmails Hin).
Qed.

(** X9.  Once registered, an account stays retrievable: after a
    successful Register and any sequence of further calls, GetUserByID
    under the returned ID returns exactly the account Register returned,
    whenever the store is up. *)
Theorem registered_account_stays_retrievable (secret : string)
    (w w' : World) (req : RegisterRequest.t) (db db1 : gorm.DB)
    (user : User) (calls : list call) :
  let svc := NewUserService NewUserRepository secret in
  Register svc w req db = (Ok user, db1) →
  db_fault w' = None →
  GetUserByID svc w' (ID user) (run svc calls db1)
  = (Ok user, run svc calls db1).
Proof.
  intros svc (row & -> & _ & _ & Hid & _)%Register_stores Hup.
  apply GetUserByID_found; [done |].
  exact (find_prefix _ _ _ _ (run_prefix secret calls db1) Hid).
Qed.

(** X10.  Register then Login.  After a successful Register and any
    sequence of further calls, with the store up: a Login with the same
    email and a password that verifies against the hash Register stored
    returns the token issued for the account's ID and email together with
    exactly the account Register returned; a Login with a password that
    does not verify against it fails with ErrInvalidCredentials. *)
Theorem register_then_login (secret : string) (w w' : World)
    (req : RegisterRequest.t) (db db1 : gorm.DB) (user : User)
    (calls : list call) (hashed : string) :
  let svc := NewUserService NewUserRepository secret in
  Register svc w req db = (Ok user, db1) →
  HashPassword w (RegisterRequest.Password req) = Ok hashed →
  db_fault w' = None →
  (∀ password token,
      CheckPassword password hashed = true →
      GenerateJWT w' (ID user) (Email user) secret = Ok token →
      Login svc w' {| LoginRequest.Email := RegisterRequest.Email req;
                      LoginRequest.Password := password |}
        (run svc calls db1)
      = (Ok {| LoginResponse.Token := token; LoginResponse.User := user |},
         run svc calls db1)) ∧
  (∀ password,
      CheckPassword password hashed = false →
      Login svc w' {| LoginRequest.Email := RegisterRequest.Email req;
                      LoginRequest.Password := password |}
        (run svc calls db1)
      = (Err ErrInvalidCredentials, run svc calls db1)).
Proof.
  intros svc (row & -> & Hmail & Hhash & _ & Hfind)%Register_stores Hh Hup.
  assert (Password row = hashed) as Hpw by congruence.
  assert (∀ password,
            Login svc w' {| LoginRequest.Email := RegisterRequest.Email req;
                            LoginRequest.Password := password |}
              (run svc calls db1)
            = if CheckPassword password (Password row)
              then match GenerateJWT w' (ID row) (Email row) secret with
                   | Ok token =>
                       (Ok {| LoginResponse.Token := token;
                              LoginResponse.User := clearPassword row |},
                        run svc calls db1)
                   | Err err =>
                       (Err (Errorf "failed to generate token" err),
                        run svc calls db1)
                   end
              else (Err ErrInvalidCredentials, run svc calls db1)) as Hlogin.
  { intros password. apply Login_found; [done |].
    exact (find_prefix _ _ _ _ (run_prefix secret calls db1) Hfind). }
  split.
  - intros password token Hchk Hgen. rewrite Hlogin, Hpw, Hchk.
    cbn [ID Email clearPassword] in Hgen. by rewrite Hgen.
  - intros password Hchk. by rewrite Hlogin, Hpw, Hchk.
Qed.

(** X11.  Login never succeeds without a stored account whose password
    verified: a successful Login leaves the database as it was, and its
    answer is a row of the table with the request's email, against whose
    stored hash the request's password verified, returned with the
    Password field emptied, together with the token issued for that row's
    ID and email under the service's secret. *)
Theorem login_requires_verified_account (secret : string) (w : World)
    (req : LoginRequest.t) (db db' : gorm.DB) (resp : LoginResponse.t) :
  Login (NewUserService NewUserRepository secret) w req db
  = (Ok resp, db') →
  db' = db ∧
  ∃ row,
    row ∈ gorm.users db ∧
    Email row = LoginRequest.Email req ∧
    CheckPassword (LoginRequest.Password req) (Password row) = true ∧
    GenerateJWT w (ID row) (Email row) secret
    = Ok (LoginResponse.Token resp) ∧
    LoginResponse.User resp = clearPassword row.
Proof.
  intros Hlogin.
  pose proof (Login_db secret w req db) as Hdb.
  rewrite Hlogin in Hdb. cbn [snd] in Hdb. subst db'. split; [done |].
  cbn [Login NewUserService] in Hlogin.
  apply Login_Ok in Hlogin as (row & Hget & Hchk & Hgen & Huser).
  cbn [repo GetByEmail NewUserRepository jwtSecret] in Hget, Hgen.
  unfold userRepository_GetByEmail, gorm.First in Hget.
  destruct (db_fault w); [done |].
  destruct (find _ _) as [r|] eqn:Hf; [| done].
  injection Hget as ->.
  apply (find_key_Some Email) in Hf as [He Hin].
  exists row. done.
Qed.

(** X12.  A storage outage is never reported as a credential or lookup
    failure: with the store down, Login fails with the driver's error
    wrapped as "failed to get user", GetUserByID with the driver's error
    itself, and Register (once the password is hashed) with it wrapped as
    "failed to create user"; none of them is, or wraps, ErrUserNotFound,
    ErrInvalidCredentials or ErrDuplicateEmail, and the database is left
    as it was. *)
Theorem storage_outage_is_reported_as_such (secret : string) (w : World)
    (msg : string) (db : gorm.DB) :
  let svc := NewUserService NewUserRepository secret in
  db_fault w = Some msg →
  (∀ req, Login svc w req db
          = (Err (Errorf "failed to get user" (gorm_Error msg)), db)) ∧
  (∀ id, GetUserByID svc w id db = (Err (gorm_Error msg), db)) ∧
  (∀ req, errors.is_Ok (HashPassword w (RegisterRequest.Password req))
          = true →
          Register svc w req db
          = (Err (Errorf "failed to create user" (gorm_Error msg)), db)) ∧
  (∀ prefix sentinel,
      sentinel ∈ [ErrUserNotFound; ErrInvalidCredentials; ErrDuplicateEmail] →
      errors.Is (gorm_Error msg) sentinel = false ∧
      errors.Is (Errorf prefix (gorm_Error msg)) sentinel = false).
Proof.
  intros svc Hdown. split; [| split; [| split]].
  - intros req. cbn [svc Login NewUserService]. unfold userService_Login.
    cbn [repo GetByEmail NewUserRepository].
    unfold userRepository_GetByEmail, gorm.First. by rewrite Hdown.
  - intros id. cbn [svc GetUserByID NewUserService].
    unfold userService_GetUserByID. cbn [repo GetByID NewUserRepository].
    unfold userRepository_GetByID, gorm.First. by rewrite Hdown.
  - intros req Hhash. unfold svc. rewrite Register_cases.
    destruct (HashPassword _ _); [| done]. cbv zeta. by rewrite Hdown.
  - intros prefix sentinel Hin.
    repeat (apply elem_of_cons in Hin as [-> | Hin]; [by split |]).
    by apply elem_of_nil in Hin.
Qed.

End engine_more.

(** ** The credential codec under Register and Login *)

Section claims_credentials.
Import text codec repository service directory.
Context {P : Primitives}.


End claims_credentials.

(** ** The transports *)

Section handlers_more.
Import repository service handler grpc_handler directory store.

Lemma Register_Ok_cleared `{U : Util} {S : Type} (s : userService (S:=S))
    (w : World) (req : RegisterRequest.t) (st st' : S) (user : User) :
  userService_Register s w req st = (Ok user, st') → Password user = "".
Proof.
  unfold userService_Register.
  destruct (HashPassword w (RegisterRequest.Password req)); [| done].
  destruct (Create _ _ _ _) as [[[e|] u'] st1].
  - destruct (errors.Is e ErrDuplicateEmail); done.
  - by intros [= <- <-].
Qed.

Lemma GetUserByID_Ok_cleared `{U : Util} {S : Type} (s : userService (S:=S))
    (w : World) (id : string) (st st' : S) (user : User) :
  userService_GetUserByID s w id st = (Ok user, st') → Password user = "".
Proof.
  unfold userService_GetUserByID.
  destruct (GetByID _ _ _ _) as [[u|e] st1]; [| done].
  by intros [= <- <-].
Qed.

(** X13.  No HTTP answer carries a password hash: for every implementation
    of package util and of the repository, whatever Register, Login and
    GetUser write as a body, an account in it has an empty Password
    field. *)
Theorem http_bodies_carry_no_hash `{U : Util} {S : Type}
    (s : userService (S:=S)) (w : World) (st : S) :
  let h := NewHTTPHandler (NewUserService (repo s) (jwtSecret s)) in
  let clean := λ body : gin.Body,
    match body with
    | gin.UserBody u => Password u = ""
    | gin.LoginBody r => Password (LoginResponse.User r) = ""
    | gin.ErrorBody _ => True
    end in
  (∀ c, clean (gin.Payload (fst (HTTPHandler_Register h w c st)))) ∧
  (∀ c, clean (gin.Payload (fst (HTTPHandler_Login h w c st)))) ∧
  (∀ c, clean (gin.Payload (fst (HTTPHandler_GetUser h w c st)))).
Proof.
  intros h clean. destruct s as [r k]. subst h.
  unfold NewHTTPHandler, NewUserService. cbn [repo jwtSecret].
  split; [| split]; intros c.
  - unfold HTTPHandler_Register. destruct (gin.ShouldBindJSON c) as [req|e];
      [| exact I].
    cbn [http_service Register].
    destruct (userService_Register _ w req st) as [[u|e] st1] eqn:Hreg.
    + exact (Register_Ok_cleared _ _ _ _ _ _ Hreg).
    + destruct (errors.Is _ _); exact I.
  - unfold HTTPHandler_Login. destruct (gin.ShouldBindJSON c) as [req|e];
      [| exact I].
    cbn [http_service Login].
    destruct (userService_Login _ w req st) as [[resp|e] st1] eqn:Hlogin.
    + apply Login_Ok in Hlogin as (user & _ & _ & _ & Huser).
      cbn [fst gin.Payload clean]. by rewrite Huser.
    + destruct (errors.Is _ _); exact I.
  - unfold HTTPHandler_GetUser. cbn [http_service GetUserByID].
    destruct (userService_GetUserByID _ w _ st) as [[u|e] st1] eqn:Hget.
    + exact (GetUserByID_Ok_cleared _ _ _ _ _ _ Hget).
    + destruct (errors.Is _ _); exact I.
Qed.

(** X14.  The text of a service error never reaches an HTTP client: when
    the request binds and the service fails, each handler answers with one
    of its two fixed responses, whatever the error is and whatever service
    is behind it. *)
Theorem http_error_bodies_are_fixed {S : Type} (h : HTTPHandler S)
    (w : World) (st st' : S) (err : error) :
  (∀ c req,
      gin.ShouldBindJSON c = Ok req →
      Register (http_service h) w req st = (Err err, st') →
      fst (HTTPHandler_Register h w c st)
      ∈ [errorJSON http.StatusConflict "Email already exists";
         errorJSON http.StatusInternalServerError "Failed to register user"]) ∧
  (∀ c req,
      gin.ShouldBindJSON c = Ok req →
      Login (http_service h) w req st = (Err err, st') →
      fst (HTTPHandler_Login h w c st)
      ∈ [errorJSON http.StatusUnauthorized "Invalid email or password";
         errorJSON http.StatusInternalServerError "Failed to login"]) ∧
  (∀ c,
      GetUserByID (http_service h) w (gin.Param c "id") st = (Err err, st') →
      fst (HTTPHandler_GetUser h w c st)
      ∈ [errorJSON http.StatusNotFound "User not found";
         errorJSON http.StatusInternalServerError "Failed to get user"]).
Proof.
  split; [| split].
  - intros c req Hbind Hsvc. unfold HTTPHandler_Register.
    rewrite Hbind, Hsvc. destruct (errors.Is _ _); cbn [fst]; set_solver.
  - intros c req Hbind Hsvc. unfold HTTPHandler_Login.
    rewrite Hbind, Hsvc. destruct (errors.Is _ _); cbn [fst]; set_solver.
  - intros c Hsvc. unfold HTTPHandler_GetUser.
    rewrite Hsvc. destruct (errors.Is _ _); cbn [fst]; set_solver.
Qed.

(** X15.  GetUser on the RPC transport, over the gorm-backed directory.  An
    empty user_id is refused with InvalidArgument; otherwise, with the
    store up, the answer is NotFound exactly when no row has the ID, and
    else the ID, email, name and formatted creation time of a row that
    has it (nothing else of the row); with the store down the answer is
    Internal with a fixed message.  The database is never changed and
    exactly one of response and error is returned. *)
Theorem grpc_get_user_answers `{U : Util} {F : TimeFormat}
    (secret : string) (w : World) (req : pbuser.GetUserRequest.t)
    (db : gorm.DB) :
  let h := NewGRPCHandler (NewUserService NewUserRepository secret) in
  let id := pbuser.GetUserRequest.UserId req in
  let refused := λ code msg, ((None, Some (status.Error code msg)), db) in
  (id = "" →
   GRPCHandler_GetUser h w req db
   = refused codes.InvalidArgument "user_id is required") ∧
  (id ≠ "" → ∀ msg, db_fault w = Some msg →
   GRPCHandler_GetUser h w req db
   = refused codes.Internal "failed to get user") ∧
  (id ≠ "" → db_fault w = None →
   (GRPCHandler_GetUser h w req db
    = refused codes.NotFound "user not found" ↔ ¬ has_id id db) ∧
   (has_id id db →
    ∃ row, row ∈ gorm.users db ∧ ID row = id ∧
      GRPCHandler_GetUser h w req db
      = ((Some {| pbuser.GetUserResponse.Id := id;
                  pbuser.GetUserResponse.Email := Email row;
                  pbuser.GetUserResponse.Name := Name row;
                  pbuser.GetUserResponse.CreatedAt :=
                    Format (CreatedAt row) "2006-01-02T15:04:05Z" |},
          None), db))).
Proof.
  intros h id refused. unfold GRPCHandler_GetUser. fold id.
  cbn [h grpc_service NewGRPCHandler GetUserByID NewUserService].
  unfold userService_GetUserByID. cbn [repo GetByID NewUserRepository].
  unfold userRepository_GetByID, gorm.First.
  split; [| split].
  - intros ->. by rewrite bool_decide_eq_true_2.
  - intros Hid msg ->. by rewrite bool_decide_eq_false_2.
  - intros Hid ->. rewrite bool_decide_eq_false_2 by done.
    pose proof (find_key_None ID id (gorm.users db)) as Hnone.
    pose proof (find_key_Some ID id (gorm.users db)) as Hsome.
    unfold has_id.
    destruct (find (λ r, bool_decide (ID r = id)) _) as [row|].
    + destruct (Hsome row eq_refl) as [Hrow Hin].
      assert (id ∈ (ID <$> gorm.users db)) as Hpresent.
      { apply list_elem_of_fmap. exists row. done. }
      split; [split; [done | by intros Hn] |].
      intros _. exists row. split; [done |]. split; [done |].
      cbn [ID Email Name CreatedAt clearPassword]. by rewrite Hrow.
    + cbn [errors.Is]. split.
      * split; [intros _; by apply Hnone | done].
      * intros Hin. exfalso. by apply (proj1 Hnone).
Qed.

End handlers_more.

(** ** Configuration, further *)

Section config_more.
Import config.

Lemma getEnv_cases (env : environ) (key defaultValue : string) :
  (os_Getenv env key ≠ "" ∧ getEnv env key defaultValue = os_Getenv env key) ∨
  (os_Getenv env key = "" ∧ getEnv env key defaultValue = defaultValue).
Proof.
  unfold getEnv. cbv zeta. case_bool_decide as H; [left | right]; done.
Qed.

(** X16.  A configuration that Load returns has no empty field: the
    database URL is the variable's value, and each of the other four is
    the variable's value when that is not empty and its default ("8080",
    "50051", "development", the fixed secret) when the variable is unset
    or empty. *)
Theorem loaded_config_has_no_empty_field (dotenv : option environ)
    (env0 : environ) (cfg : Config) :
  let env := godotenv_Load dotenv env0 in
  let pick := λ key defaultValue,
    if bool_decide (os_Getenv env key = "") then defaultValue
    else os_Getenv env key in
  Load dotenv env0 = Ok cfg →
  (DatabaseURL cfg ≠ "" ∧ JWTSecret cfg ≠ "" ∧ HTTPPort cfg ≠ "" ∧
   GRPCPort cfg ≠ "" ∧ Environment cfg ≠ "") ∧
  DatabaseURL cfg = os_Getenv env "DATABASE_URL" ∧
  JWTSecret cfg = pick "JWT_SECRET" "your-secret-key-change-in-production" ∧
  HTTPPort cfg = pick "HTTP_PORT" "8080" ∧
  GRPCPort cfg = pick "GRPC_PORT" "50051" ∧
  Environment cfg = pick "ENVIRONMENT" "development".
Proof.
  intros env pick. unfold Load. fold env. cbn [DatabaseURL].
  case_bool_decide as Hdb; [done |]. intros [= <-].
  cbn [DatabaseURL JWTSecret HTTPPort GRPCPort Environment].
  assert (∀ key d, getEnv env key d = pick key d) as Hpick.
  { intros key d. unfold pick.
    destruct (getEnv_cases env key d) as [[Hne ->] | [He ->]].
    - by rewrite bool_decide_eq_false_2.
    - by rewrite bool_decide_eq_true_2. }
  assert (∀ key d, d ≠ "" → pick key d ≠ "") as Hfull.
  { intros key d Hd. unfold pick. by case_bool_decide. }
  rewrite <- !Hpick.
  split; [| split; [| done]].
  - rewrite !Hpick. repeat split; try (by apply Hfull).
    by rewrite <- Hpick.
  - destruct (getEnv_cases env "DATABASE_URL" "") as [[_ ->] | [He Hd]];
      [done | congruence].
Qed.

(** X17.  The .env file never overrides the process environment: a
    variable the process has, even empty, keeps its value, and only a
    variable it lacks is read from the file.  So Load fails when the
    process sets DATABASE_URL to the empty string, whatever the file
    says, and succeeds with the file's URL when the process does not set
    the variable. *)
Theorem dotenv_never_overrides (dotenv : option environ) (env0 : environ) :
  (∀ key value, env0 !! key = Some value →
                os_Getenv (godotenv_Load dotenv env0) key = value) ∧
  (∀ file key, env0 !! key = None →
               os_Getenv (godotenv_Load (Some file) env0) key
               = os_Getenv file key) ∧
  (env0 !! "DATABASE_URL" = Some "" →
   errors.is_Ok (Load dotenv env0) = false) ∧
  (∀ file url, env0 !! "DATABASE_URL" = None →
               file !! "DATABASE_URL" = Some url → url ≠ "" →
               ∃ cfg, Load (Some file) env0 = Ok cfg ∧
                      DatabaseURL cfg = url).
Proof.
  assert (∀ key value, env0 !! key = Some value →
            os_Getenv (godotenv_Load dotenv env0) key = value) as Hkeep.
  { intros key value Hk. unfold os_Getenv, godotenv_Load.
    destruct dotenv as [file|]; [| by rewrite Hk].
    by rewrite (lookup_union_Some_l _ _ _ _ Hk). }
  assert (∀ file key, env0 !! key = None →
            os_Getenv (godotenv_Load (Some file) env0) key
            = os_Getenv file key) as Hfile.
  { intros file key Hk. unfold os_Getenv, godotenv_Load.
    by rewrite (lookup_union_r _ _ _ Hk). }
  split; [exact Hkeep |]. split; [exact Hfile |]. split.
  - intros Hempty. unfold Load. cbn [DatabaseURL].
    rewrite getEnv_empty_default, (Hkeep _ _ Hempty).
    by rewrite bool_decide_eq_true_2.
  - intros file url Hnone Hurl Hne.
    assert (getEnv (godotenv_Load (Some file) env0) "DATABASE_URL" "" = url)
      as Hdb.
    { rewrite getEnv_empty_default, (Hfile _ _ Hnone).
      unfold os_Getenv. by rewrite Hurl. }
    unfold Load. cbv zeta. cbn [DatabaseURL]. rewrite Hdb.
    rewrite bool_decide_eq_false_2 by done.
    eexists. split; [reflexivity |]. reflexivity.
Qed.

End config_more.

(** ** The further properties on the scenario *)

(** A decidable fact about concrete rows, settled by evaluation. *)
Ltac by_evaluation :=
  unfold store.has_id, directory.email_present;
  apply (bool_decide_unpack _); vm_compute; exact I.

Lemma Create_then_lookup_witness :
  ∃ u' db',
    repository.userRepository_Create scenario.w1 cases.bob_struct scenario.db1
    = (None, u', db') ∧
    repository.userRepository_GetByID scenario.late (ID u') db' = (Ok u', db') ∧
    repository.userRepository_GetByEmail scenario.late (Email u') db'
    = (Ok u', db').
Proof.
  destruct (repository.userRepository_Create scenario.w1 cases.bob_struct
              scenario.db1) as [[[e|] u'] db'] eqn:Hc.
  - vm_compute in Hc. discriminate.
  - exists u', db'. split; [reflexivity |].
    exact (Create_then_lookup scenario.w1 scenario.late _ _ _ _ Hc eq_refl).
Defined.

Lemma Create_reports_duplicate_iff_witness :
  fst (fst (repository.userRepository_Create scenario.w1 cases.same_id
              scenario.db1)) = Some ErrDuplicateEmail.
Proof.
  apply (proj2 (proj1 (Create_reports_duplicate_iff scenario.w1
                         cases.same_id scenario.db1))).
  split; [reflexivity |]. left.
  by_evaluation.
Defined.

Lemma lookup_missing_key_witness :
  repository.userRepository_GetByID scenario.w1 "no-such-id" scenario.db1
  = (Err ErrUserNotFound, scenario.db1).
Proof.
  apply (proj2 (proj1 (lookup_missing_key scenario.w1 "no-such-id"
                         scenario.db1))).
  split; [reflexivity |].
  by_evaluation.
Defined.

Lemma Register_success_iff_witness :
  service.Register scenario.svc scenario.w0 scenario.ann gorm.empty
  = (Ok cases.ann_account, scenario.db1).
Proof.
  apply (proj2 (Register_success_iff (U:=scenario.util) scenario.secret
                  scenario.w0 scenario.ann gorm.empty scenario.db1
                  cases.ann_account)).
  exists (Password cases.ann_row).
  split; [vm_compute; reflexivity |]. split; [reflexivity |].
  split; [by_evaluation |].
  split; [by_evaluation |].
  split; vm_compute; reflexivity.
Defined.

Lemma Register_duplicate_iff_witness :
  service.Register scenario.svc scenario.w1 scenario.ann scenario.db1
  = (Err ErrDuplicateEmail, scenario.db1).
Proof.
  apply (proj2 (Register_duplicate_iff (U:=scenario.util) scenario.secret
                  scenario.w1 scenario.ann scenario.db1 scenario.db1)).
  split; [reflexivity |]. split; [vm_compute; reflexivity |].
  split; [reflexivity |]. right.
  by_evaluation.
Defined.

Lemma only_successful_register_writes_witness :
  ∃ w req user,
    directory.CallRegister scenario.w0 scenario.ann
    = directory.CallRegister w req ∧
    service.Register scenario.svc w req gorm.empty
    = (Ok user,
       directory.step scenario.svc
         (directory.CallRegister scenario.w0 scenario.ann) gorm.empty).
Proof.
  apply (only_successful_register_writes (U:=scenario.util) scenario.secret
           (directory.CallRegister scenario.w0 scenario.ann) gorm.empty).
  vm_compute. discriminate.
Defined.

Lemma rows_never_removed_witness :
  cases.ann_row
  ∈ gorm.users (directory.run scenario.svc cases.then_bob scenario.db1).
Proof.
  apply (proj2 (rows_never_removed (U:=scenario.util) scenario.secret
                  cases.then_bob scenario.db1)).
  by_evaluation.
Defined.

Lemma ids_stay_unique_witness :
  let db := directory.run scenario.svc
              [directory.CallRegister scenario.w0 scenario.ann] gorm.empty in
  service.GetUserByID scenario.svc scenario.w1 "u-1" db
  = (Ok cases.ann_account, db).
Proof.
  intros db.
  apply (proj1 (proj2 (ids_stay_unique (U:=scenario.util) scenario.secret
                         [directory.CallRegister scenario.w0 scenario.ann])
                  scenario.w1 cases.ann_row eq_refl
                  ltac:(by_evaluation))).
Defined.

Lemma registered_account_stays_retrievable_witness :
  service.GetUserByID scenario.svc scenario.late "u-1"
    (directory.run scenario.svc cases.then_bob scenario.db1)
  = (Ok cases.ann_account,
     directory.run scenario.svc cases.then_bob scenario.db1).
Proof.
  apply (registered_account_stays_retrievable (U:=scenario.util)
           scenario.secret scenario.w0 scenario.late scenario.ann
           gorm.empty scenario.db1 cases.ann_account cases.then_bob).
  - vm_compute. reflexivity.
  - reflexivity.
Defined.

Lemma register_then_login_witness :
  service.Login scenario.svc scenario.late scenario.ann_wrong
    (directory.run scenario.svc cases.then_bob scenario.db1)
  = (Err ErrInvalidCredentials,
     directory.run scenario.svc cases.then_bob scenario.db1).
Proof.
  apply (proj2 (register_then_login (U:=scenario.util)
                  scenario.secret scenario.w0 scenario.late scenario.ann
                  gorm.empty scenario.db1 cases.ann_account cases.then_bob
                  (Password cases.ann_row)
                  ltac:(vm_compute; reflexivity)
                  ltac:(vm_compute; reflexivity) eq_refl) "wrong").
  vm_compute. reflexivity.
Defined.

Lemma login_requires_verified_account_witness :
  ∃ resp row,
    service.Login scenario.svc scenario.w1 scenario.ann_login scenario.db1
    = (Ok resp, scenario.db1) ∧
    row ∈ gorm.users scenario.db1 ∧
    LoginResponse.User resp = service.clearPassword row.
Proof.
  destruct (service.Login scenario.svc scenario.w1 scenario.ann_login
              scenario.db1) as [[resp|e] db'] eqn:Hlogin.
  - destruct (login_requires_verified_account (U:=scenario.util)
                scenario.secret scenario.w1 scenario.ann_login scenario.db1
                db' resp Hlogin) as (-> & row & Hin & _ & _ & _ & Huser).
    exists resp, row. done.
  - vm_compute in Hlogin. discriminate.
Defined.

Lemma storage_outage_is_reported_as_such_witness :
  service.Login scenario.svc cases.down scenario.ann_login scenario.db1
  = (Err (Errorf "failed to get user" (gorm_Error "connection refused")),
     scenario.db1).
Proof.
  apply (proj1 (storage_outage_is_reported_as_such (U:=scenario.util)
                  scenario.secret cases.down "connection refused"
                  scenario.db1 eq_refl)).
Defined.

Lemma http_error_bodies_are_fixed_witness :
  fst (handler.HTTPHandler_Register (handler.NewHTTPHandler scenario.svc)
         scenario.w1 scenario.ann_request scenario.db1)
  ∈ [handler.errorJSON http.StatusConflict "Email already exists";
     handler.errorJSON http.StatusInternalServerError
       "Failed to register user"].
Proof.
  apply (proj1 (http_error_bodies_are_fixed
                  (handler.NewHTTPHandler scenario.svc) scenario.w1
                  scenario.db1 scenario.db1 ErrDuplicateEmail)
           scenario.ann_request scenario.ann eq_refl).
  vm_compute. reflexivity.
Defined.

Lemma grpc_get_user_answers_witness :
  ∃ row,
    row ∈ gorm.users scenario.db1 ∧ ID row = "u-1" ∧
    grpc_handler.GRPCHandler_GetUser (F:=cases.seconds)
      (handler.NewGRPCHandler scenario.svc) scenario.w1 cases.ann_lookup
      scenario.db1
    = ((Some {| pbuser.GetUserResponse.Id := "u-1";
                pbuser.GetUserResponse.Email := Email row;
                pbuser.GetUserResponse.Name := Name row;
                pbuser.GetUserResponse.CreatedAt :=
                  Format (TimeFormat:=cases.seconds) (CreatedAt row)
                    "2006-01-02T15:04:05Z" |},
        None), scenario.db1).
Proof.
  apply (proj2 (proj2 (proj2 (grpc_get_user_answers (U:=scenario.util)
                                (F:=cases.seconds) scenario.secret
                                scenario.w1 cases.ann_lookup scenario.db1))
                  ltac:(discriminate) eq_refl)).
  by_evaluation.
Defined.

Lemma loaded_config_has_no_empty_field_witness :
  ∃ cfg,
    config.Load None scenario.environment = Ok cfg ∧
    config.HTTPPort cfg = "8080" ∧ config.JWTSecret cfg ≠ "".
Proof.
  destruct (config.Load None scenario.environment) as [cfg|e] eqn:Hload.
  - exists cfg. split; [reflexivity |].
    destruct (loaded_config_has_no_empty_field None scenario.environment
                cfg Hload) as ((_ & Hjwt & _) & _ & _ & Hport & _).
    split; [exact Hport | exact Hjwt].
  - vm_compute in Hload. discriminate.
Defined.

Lemma dotenv_never_overrides_witness :
  ∃ cfg,
    config.Load (Some cases.with_dotenv) ∅ = Ok cfg ∧
    config.DatabaseURL cfg = "postgres://dotenv/golearn".
Proof.
  apply (proj2 (proj2 (proj2 (dotenv_never_overrides
                                (Some cases.with_dotenv) ∅)))
           cases.with_dotenv "postgres://dotenv/golearn").
  - reflexivity.
  - vm_compute. reflexivity.
  - discriminate.
Defined.

(** ** The credential codec on the scenario *)


